(** * Gemini-to-OpenAI gateway: request mapper, response translator and
      stream re-framer

    A shallow embedding of the three deployment variants of the gateway:

    - [Fallback]  -- [gemini-converter-vercel/api/index.js]: streaming
      supported, empty content replaced by a placeholder;
    - [Baseline]  -- the English-commented variant: streaming supported, no
      placeholder;
    - [Vercel]    -- the variant that refuses streaming requests.

    [BaselineStream] is the re-framer of the baseline variant, [Gateway] the
    chat-completions route of the two streaming variants, [ModelsRoute] the
    model-list route the three variants share.

    JavaScript values are modelled as the JSON-shaped values the program
    handles ([req.body] and [response.data] are produced by [JSON.parse]);
    strings are sequences of UTF-16 code units; exceptions are explicit
    ([Res]); the outgoing connection [res] is the log of the calls made on
    it; a chunk of the backend stream is the text it decodes to; what the
    platform supplies ([Math.random], [Date.now], the backend's answer) is
    an argument. *)

From Stdlib Require Import List NArith ZArith Bool Arith Lia.
From Stdlib Require String Ascii.
Import ListNotations.
Import String.StringSyntax.
Delimit Scope string_scope with string.

Set Implicit Arguments.

(* ================================================================== *)
(** ** JavaScript strings *)

Module JsString.

(** A JavaScript string is a sequence of 16-bit code units. *)
Definition code_unit := N.
Definition jstring := list code_unit.

(** ASCII literals of the source text. *)
Definition js (s : String.string) : jstring :=
  map Ascii.N_of_ascii (String.list_ascii_of_string s).
Arguments js s%_string.

Fixpoint eqb (a b : jstring) : bool :=
  match a, b with
  | [], [] => true
  | x :: a', y :: b' => N.eqb x y && eqb a' b'
  | _, _ => false
  end.

(** [s.startsWith(p)] *)
Fixpoint startsWith (p s : jstring) : bool :=
  match p, s with
  | [], _ => true
  | x :: p', y :: s' => N.eqb x y && startsWith p' s'
  | _ :: _, [] => false
  end.

(** [s.indexOf(p)]: the first position at which [p] occurs, [None] for
    the source's [-1]. *)
Fixpoint indexOf (p s : jstring) : option nat :=
  if startsWith p s then Some 0
  else match s with
       | [] => None
       | _ :: s' => option_map S (indexOf p s')
       end.

(** [s.substring(0, n)] and [s.substring(n)] for [0 <= n]. *)
Definition substring_to (n : nat) (s : jstring) : jstring := firstn n s.
Definition substring_from (n : nat) (s : jstring) : jstring := skipn n s.

(** [s.replace(/^p/, '')] for a literal [p]: the prefix is removed when
    the string starts with it. *)
Definition strip_prefix (p s : jstring) : jstring :=
  if startsWith p s then skipn (length p) s else s.

(** ECMAScript [WhiteSpace] and [LineTerminator] code points, the ones
    [String.prototype.trim] removes. *)
Definition is_whitespace (c : code_unit) : bool :=
  ((9 <=? c) && (c <=? 13) || (c =? 32) || (c =? 160) || (c =? 5760)
   || (8192 <=? c) && (c <=? 8202) || (c =? 8232) || (c =? 8233)
   || (c =? 8239) || (c =? 8287) || (c =? 12288) || (c =? 65279))%N.

Fixpoint trimStart (s : jstring) : jstring :=
  match s with
  | [] => []
  | c :: s' => if is_whitespace c then trimStart s' else s
  end.

Definition trimEnd (s : jstring) : jstring := rev (trimStart (rev s)).

(** [s.trim()] *)
Definition trim (s : jstring) : jstring := trimEnd (trimStart s).

(** "Empty or all-whitespace", stated on the characters. *)
Definition blank (s : jstring) : bool := forallb is_whitespace s.

(** Iteration of a string yields its code points: a high surrogate
    followed by a low one is a single element. *)
Definition is_high (c : code_unit) : bool := ((55296 <=? c) && (c <=? 56319))%N.
Definition is_low (c : code_unit) : bool := ((56320 <=? c) && (c <=? 57343))%N.

Fixpoint code_points (s : jstring) : list jstring :=
  match s with
  | [] => []
  | c :: r =>
      match r with
      | d :: r' =>
          if is_high c && is_low d then [c; d] :: code_points r'
          else [c] :: code_points r
      | [] => [[c]]
      end
  end.

Definition hex_digit (d : N) : code_unit :=
  (if d <? 10 then 48 + d else 87 + d)%N.

(** [Buffer.from(s).toString('hex')] on a string of one-byte characters
    (the decimal rendering of a number is one): two lower-case
    hexadecimal digits per character. *)
Fixpoint hex (s : jstring) : jstring :=
  match s with
  | [] => []
  | c :: s' => hex_digit (c / 16 mod 16) :: hex_digit (c mod 16) :: hex s'
  end.

End JsString.

Import JsString.

(* ================================================================== *)
(** ** JavaScript values and exceptions *)

(** A JSON number keeps its exact decimal value
    [(-1)^num_neg * num_mant * 10^num_exp]; the program only copies numbers
    and tests them for truthiness. *)
Record JsNumber := mkNumber { num_neg : bool; num_mant : N; num_exp : Z }.

Definition num_of_Z (z : Z) : JsNumber :=
  {| num_neg := (z <? 0)%Z; num_mant := Z.abs_N z; num_exp := 0 |}.

(** The IEEE double nearest to the value is [+0] or [-0] exactly when the
    magnitude is at most [2^-1075], half the least positive double. *)
Definition num_is_zero (n : JsNumber) : bool :=
  (num_mant n =? 0)%N
  || ((num_exp n <? 0)%Z
      && (Z.of_N (num_mant n) * 2 ^ 1075 <=? 10 ^ (- num_exp n))%Z).

Unset Elimination Schemes.
Inductive JsValue :=
| JUndefined
| JNull
| JBool (b : bool)
| JNum (n : JsNumber)
| JStr (s : jstring)
| JArr (elems : list JsValue)
| JObj (props : list (jstring * JsValue)).
Set Elimination Schemes.

Inductive Exn := TypeError | SyntaxError.

Inductive Res (A : Type) :=
| Ok (a : A)
| Throw (e : Exn).
Arguments Ok {A} a.
Arguments Throw {A} e.

Definition bind {A B} (c : Res A) (k : A -> Res B) : Res B :=
  match c with
  | Ok a => k a
  | Throw e => Throw e
  end.

Notation "x <- c ;; k" := (bind c (fun x => k))
  (at level 61, c at next level, right associativity).

Module Js.

(** [ToBoolean] *)
Definition to_boolean (v : JsValue) : bool :=
  match v with
  | JUndefined | JNull => false
  | JBool b => b
  | JNum n => negb (num_is_zero n)
  | JStr s => match s with [] => false | _ => true end
  | JArr _ | JObj _ => true
  end.

Definition nullish (v : JsValue) : bool :=
  match v with
  | JUndefined | JNull => true
  | _ => false
  end.

(** [a || b] *)
Definition or (a b : JsValue) : JsValue := if to_boolean a then a else b.

(** Own property of an object, [undefined] when absent. *)
Fixpoint lookup (k : jstring) (props : list (jstring * JsValue)) : JsValue :=
  match props with
  | [] => JUndefined
  | (k', v) :: props' => if JsString.eqb k k' then v else lookup k props'
  end.

(** [CreateDataProperty]: an existing key keeps its place and takes the
    new value, a new key is added last. *)
Fixpoint set_prop (k : jstring) (v : JsValue) (props : list (jstring * JsValue))
  : list (jstring * JsValue) :=
  match props with
  | [] => [(k, v)]
  | (k', v') :: props' =>
      if JsString.eqb k k' then (k, v) :: props'
      else (k', v') :: set_prop k v props'
  end.

(** [v.k] for the property names the program reads ([candidates],
    [content], [parts], [text], [role], [messages], [max_tokens], ...):
    none of them is defined on a built-in prototype, so on a value that
    is not an object the read yields [undefined]; on [null] and
    [undefined] it throws. *)
Definition get (v : JsValue) (k : jstring) : Res JsValue :=
  match v with
  | JUndefined | JNull => Throw TypeError
  | JObj props => Ok (lookup k props)
  | _ => Ok JUndefined
  end.

(** [v?.k] *)
Definition opt_get (v : JsValue) (k : jstring) : JsValue :=
  match v with
  | JObj props => lookup k props
  | _ => JUndefined
  end.

(** [v?.[0]] *)
Definition opt_first (v : JsValue) : JsValue :=
  match v with
  | JArr elems => nth 0 elems JUndefined
  | JStr (c :: _) => JStr [c]
  | JObj props => lookup (js "0") props
  | _ => JUndefined
  end.

(** [v === 'lit'] *)
Definition is_string (lit : jstring) (v : JsValue) : bool :=
  match v with
  | JStr s => JsString.eqb s lit
  | _ => false
  end.

(** The values a [for (... of v)] loop visits; anything but an array or
    a string is not iterable. *)
Definition iterate (v : JsValue) : Res (list JsValue) :=
  match v with
  | JArr elems => Ok elems
  | JStr s => Ok (map JStr (code_points s))
  | _ => Throw TypeError
  end.

(** [v.trim()] *)
Definition trim (v : JsValue) : Res jstring :=
  match v with
  | JStr s => Ok (JsString.trim s)
  | _ => Throw TypeError
  end.

End Js.

(* ================================================================== *)
(** ** Request mapper, shared by the three variants *)

Record Part := mkPart { text : JsValue }.
Record Content := mkContent { role : jstring; parts : list Part }.
Record GenerationConfig :=
  mkGenerationConfig { maxOutputTokens : option JsValue;
                       temperature : option JsValue }.
Record SafetySetting := mkSafety { category : jstring; threshold : jstring }.
Record GeminiRequest :=
  mkGeminiRequest { contents : list Content;
                    generationConfig : GenerationConfig;
                    safetySettings : list SafetySetting }.

Definition permissive_safety : list SafetySetting :=
  [ mkSafety (js "HARM_CATEGORY_HARASSMENT") (js "BLOCK_NONE");
    mkSafety (js "HARM_CATEGORY_HATE_SPEECH") (js "BLOCK_NONE");
    mkSafety (js "HARM_CATEGORY_SEXUALLY_EXPLICIT") (js "BLOCK_NONE");
    mkSafety (js "HARM_CATEGORY_DANGEROUS_CONTENT") (js "BLOCK_NONE") ].

(** [geminiRequest.contents.push(c)] *)
Definition push_content (g : GeminiRequest) (c : Content) : GeminiRequest :=
  {| contents := contents g ++ [c];
     generationConfig := generationConfig g;
     safetySettings := safetySettings g |}.

(** One turn of the [for (const message of ...)] loop. *)
Definition map_message (g : GeminiRequest) (message : JsValue) : Res GeminiRequest :=
  r <- Js.get message (js "role") ;;
  let role := if Js.is_string (js "assistant") r then js "model" else js "user" in
  c <- Js.get message (js "content") ;;
  Ok (push_content g {| role := role; parts := [ {| text := c |} ] |}).

Fixpoint for_of {S : Type} (body : S -> JsValue -> Res S) (items : list JsValue)
  (s : S) : Res S :=
  match items with
  | [] => Ok s
  | x :: items' => s' <- body s x ;; for_of body items' s'
  end.

Definition openaiToGeminiRequest (openaiRequest : JsValue) : Res GeminiRequest :=
  let config := {| maxOutputTokens := None; temperature := None |} in
  max_tokens <- Js.get openaiRequest (js "max_tokens") ;;
  let config :=
    if Js.to_boolean max_tokens
    then {| maxOutputTokens := Some max_tokens; temperature := temperature config |}
    else config in
  temp <- Js.get openaiRequest (js "temperature") ;;
  let config :=
    if Js.to_boolean temp
    then {| maxOutputTokens := maxOutputTokens config; temperature := Some temp |}
    else config in
  messages <- Js.get openaiRequest (js "messages") ;;
  items <- Js.iterate messages ;;
  for_of map_message items
    {| contents := []; generationConfig := config;
       safetySettings := permissive_safety |}.

(** A ChatRequest as far as the mapper depends on it: an object whose
    [messages] is an array without [null] entries.  Roles and contents are
    not constrained. *)
Definition messages_of (openaiRequest : JsValue) : option (list JsValue) :=
  match openaiRequest with
  | JObj props =>
      match Js.lookup (js "messages") props with
      | JArr msgs =>
          if forallb (fun m => negb (Js.nullish m)) msgs then Some msgs else None
      | _ => None
      end
  | _ => None
  end.

(** The entry the loop pushes for a message that is not [null]. *)
Definition content_of (message : JsValue) : Content :=
  {| role :=
       if Js.is_string (js "assistant") (Js.opt_get message (js "role"))
       then js "model" else js "user";
     parts := [ {| text := Js.opt_get message (js "content") |} ] |}.

(** A request with a system, a user and an assistant message, a zero
    [max_tokens] and a temperature of 0.7. *)
Definition sample_request : JsValue :=
  JObj [ (js "model", JStr (js "gemini-1.5-pro"));
         (js "messages",
          JArr [ JObj [(js "role", JStr (js "system"));
                       (js "content", JStr (js "Be brief."))];
                 JObj [(js "role", JStr (js "user"));
                       (js "content", JStr (js "Hello"))];
                 JObj [(js "role", JStr (js "assistant"));
                       (js "content", JStr (js "Hi there"))] ]);
         (js "max_tokens", JNum (num_of_Z 0));
         (js "temperature",
          JNum {| num_neg := false; num_mant := 7; num_exp := -1 |}) ].

(* ================================================================== *)
(** ** [JSON.parse] *)

Module JSON.

Inductive PResult (A : Type) :=
| POk (a : A) (rest : jstring)
| PErr
| PFuel.
Arguments POk {A} a rest.
Arguments PErr {A}.
Arguments PFuel {A}.

Definition pmap {A B} (f : A -> B) (r : PResult A) : PResult B :=
  match r with
  | POk a rest => POk (f a) rest
  | PErr => PErr
  | PFuel => PFuel
  end.

(** JSON white space: space, tab, line feed, carriage return. *)
Definition is_ws (c : code_unit) : bool :=
  ((c =? 32) || (c =? 9) || (c =? 10) || (c =? 13))%N.

Fixpoint skip_ws (s : jstring) : jstring :=
  match s with
  | [] => []
  | c :: s' => if is_ws c then skip_ws s' else s
  end.

Definition is_digit (c : code_unit) : bool := ((48 <=? c) && (c <=? 57))%N.

Definition hex_value (c : code_unit) : option N :=
  (if is_digit c then Some (c - 48)
   else if (97 <=? c) && (c <=? 102) then Some (c - 87)
   else if (65 <=? c) && (c <=? 70) then Some (c - 55)
   else None)%N.

(** The character a one-letter escape stands for. *)
Definition escape (e : code_unit) : option code_unit :=
  (if e =? 34 then Some 34          (* quotation mark *)
   else if e =? 92 then Some 92     (* reverse solidus *)
   else if e =? 47 then Some 47     (* solidus *)
   else if e =? 98 then Some 8      (* b: backspace *)
   else if e =? 102 then Some 12    (* f: form feed *)
   else if e =? 110 then Some 10    (* n: line feed *)
   else if e =? 114 then Some 13    (* r: carriage return *)
   else if e =? 116 then Some 9     (* t: tab *)
   else None)%N.

Definition cons_char (c : code_unit) (r : option (jstring * jstring))
  : option (jstring * jstring) :=
  match r with
  | Some (cs, rest) => Some (c :: cs, rest)
  | None => None
  end.

(** The characters of a string literal, read after its opening quote up
    to and including the closing one. *)
Fixpoint string_chars (s : jstring) : option (jstring * jstring) :=
  match s with
  | [] => None
  | c :: r =>
      if (c =? 34)%N then Some ([], r)
      else if (c =? 92)%N then
        match r with
        | [] => None
        | e :: r' =>
            if (e =? 117)%N then
              match r' with
              | h1 :: h2 :: h3 :: h4 :: r'' =>
                  match hex_value h1, hex_value h2, hex_value h3, hex_value h4 with
                  | Some a, Some b, Some c', Some d =>
                      cons_char (((a * 16 + b) * 16 + c') * 16 + d)%N (string_chars r'')
                  | _, _, _, _ => None
                  end
              | _ => None
              end
            else
              match escape e with
              | Some u => cons_char u (string_chars r')
              | None => None
              end
        end
      else if (c <? 32)%N then None
      else cons_char c (string_chars r)
  end.

Fixpoint digits (s : jstring) : list N * jstring :=
  match s with
  | [] => ([], [])
  | c :: s' =>
      if is_digit c then let (ds, r) := digits s' in ((c - 48)%N :: ds, r)
      else ([], s)
  end.

Definition of_digits (ds : list N) : N :=
  fold_left (fun acc d => acc * 10 + d)%N ds 0%N.

(** [0] or a digit sequence that does not start with [0]. *)
Definition int_part (s : jstring) : option (list N * jstring) :=
  match s with
  | [] => None
  | c :: r =>
      if (c =? 48)%N then Some ([0%N], r)
      else if is_digit c then Some (digits s)
      else None
  end.

Definition frac_part (s : jstring) : option (list N * jstring) :=
  match s with
  | c :: r =>
      if (c =? 46)%N then
        match digits r with
        | ([], _) => None
        | (ds, r') => Some (ds, r')
        end
      else Some ([], s)
  | [] => Some ([], [])
  end.

Definition exp_sign (s : jstring) : bool * jstring :=
  match s with
  | c :: r =>
      if (c =? 43)%N then (false, r)
      else if (c =? 45)%N then (true, r)
      else (false, s)
  | [] => (false, [])
  end.

Definition exp_part (s : jstring) : option (Z * jstring) :=
  match s with
  | c :: r =>
      if ((c =? 101) || (c =? 69))%N then
        let (neg, r1) := exp_sign r in
        match digits r1 with
        | ([], _) => None
        | (ds, r2) =>
            let e := Z.of_N (of_digits ds) in
            Some (if neg then (- e)%Z else e, r2)
        end
      else Some (0%Z, s)
  | [] => Some (0%Z, [])
  end.

Definition number (s : jstring) : option (JsNumber * jstring) :=
  let (neg, s1) :=
    match s with
    | c :: r => if (c =? 45)%N then (true, r) else (false, s)
    | [] => (false, s)
    end in
  match int_part s1 with
  | None => None
  | Some (i, s2) =>
      match frac_part s2 with
      | None => None
      | Some (f, s3) =>
          match exp_part s3 with
          | None => None
          | Some (e, s4) =>
              Some ({| num_neg := neg;
                       num_mant := of_digits (i ++ f);
                       num_exp := (e - Z.of_nat (length f))%Z |}, s4)
          end
      end
  end.

Definition literal (lit : jstring) (v : JsValue) (s : jstring) : PResult JsValue :=
  if startsWith lit s then POk v (skipn (length lit) s) else PErr.

(** Members are defined in source order; a repeated key overwrites. *)
Definition object_of (members : list (jstring * JsValue)) : JsValue :=
  JObj (fold_left (fun o kv => Js.set_prop (fst kv) (snd kv) o) members []).

Fixpoint value (fuel : nat) (s : jstring) : PResult JsValue :=
  match fuel with
  | O => PFuel
  | S fuel' =>
      match skip_ws s with
      | [] => PErr
      | c :: r =>
          if (c =? 91)%N then                         (* array *)
            match skip_ws r with
            | d :: r' =>
                if (d =? 93)%N then POk (JArr []) r'
                else pmap JArr (elements fuel' (d :: r'))
            | [] => PErr
            end
          else if (c =? 123)%N then                   (* object *)
            match skip_ws r with
            | d :: r' =>
                if (d =? 125)%N then POk (JObj []) r'
                else pmap object_of (members fuel' (d :: r'))
            | [] => PErr
            end
          else if (c =? 34)%N then                    (* string *)
            match string_chars r with
            | Some (cs, rest) => POk (JStr cs) rest
            | None => PErr
            end
          else if (c =? 116)%N then literal (js "true") (JBool true) (c :: r)
          else if (c =? 102)%N then literal (js "false") (JBool false) (c :: r)
          else if (c =? 110)%N then literal (js "null") JNull (c :: r)
          else
            match number (c :: r) with
            | Some (n, rest) => POk (JNum n) rest
            | None => PErr
            end
      end
  end

with elements (fuel : nat) (s : jstring) : PResult (list JsValue) :=
  match fuel with
  | O => PFuel
  | S fuel' =>
      match value fuel' s with
      | POk v r =>
          match skip_ws r with
          | d :: r' =>
              if (d =? 44)%N then pmap (cons v) (elements fuel' r')
              else if (d =? 93)%N then POk [v] r'
              else PErr
          | [] => PErr
          end
      | PErr => PErr
      | PFuel => PFuel
      end
  end

with members (fuel : nat) (s : jstring) : PResult (list (jstring * JsValue)) :=
  match fuel with
  | O => PFuel
  | S fuel' =>
      match skip_ws s with
      | q :: r =>
          if (q =? 34)%N then
            match string_chars r with
            | Some (k, r1) =>
                match skip_ws r1 with
                | col :: r2 =>
                    if (col =? 58)%N then
                      match value fuel' r2 with
                      | POk v r3 =>
                          match skip_ws r3 with
                          | d :: r4 =>
                              if (d =? 44)%N then pmap (cons (k, v)) (members fuel' r4)
                              else if (d =? 125)%N then POk [(k, v)] r4
                              else PErr
                          | [] => PErr
                          end
                      | PErr => PErr
                      | PFuel => PFuel
                      end
                    else PErr
                | [] => PErr
                end
            | None => PErr
            end
          else PErr
      | [] => PErr
      end
  end.

(** Each nested call of [value] has consumed a character since the one
    before, with at most one call of [elements] or [members] in between:
    two units of fuel a character are enough (see [value_fuel]). *)
Definition fuel_for (s : jstring) : nat := 2 * length s + 1.

(** [JSON.parse(s)]: one value, white space around it, nothing else. *)
Definition parse (s : jstring) : Res JsValue :=
  match value (fuel_for s) s with
  | POk v rest =>
      match skip_ws rest with
      | [] => Ok v
      | _ :: _ => Throw SyntaxError
      end
  | _ => Throw SyntaxError
  end.

End JSON.

(** A double quote and a line feed, to write JSON texts with. *)
Definition dq : jstring := [34%N].
Definition lf : jstring := [10%N].

(* ================================================================== *)
(** ** Response envelopes *)

(** What one exchange draws from the platform: the text of
    [Math.random().toString()] and the value of [Date.now()]. *)
Record Env := mkEnv { random : jstring; now : Z }.

(** [`chatcmpl-${Buffer.from(Math.random().toString()).toString('hex').substring(0, 12)}`] *)
Definition chatcmpl_id (env : Env) : jstring :=
  js "chatcmpl-" ++ substring_to 12 (hex (random env)).

(** [Math.floor(Date.now() / 1000)] *)
Definition unix_seconds (env : Env) : Z := (now env / 1000)%Z.

Module Completion.
Record Message := mkMessage { role : jstring; content : JsValue }.
Record Choice :=
  mkChoice { index : Z; message : Message; finish_reason : jstring }.
Record Usage :=
  mkUsage { prompt_tokens : JsValue;
            completion_tokens : JsValue;
            total_tokens : JsValue }.
Record t :=
  mk { id : jstring; object : jstring; created : Z; model : JsValue;
       choices : list Choice; usage : Usage }.

(** [choices[0].message.content] *)
Definition first_content (r : t) : option JsValue :=
  match choices r with
  | c :: _ => Some (content (message c))
  | [] => None
  end.
End Completion.

Module Chunk.
(** [delta] is [{ content: c }] or [{}]. *)
Record Delta := mkDelta { content : option JsValue }.
(** [finish_reason] is [null] or a string. *)
Record Choice :=
  mkChoice { index : Z; delta : Delta; finish_reason : option jstring }.
Record t :=
  mk { id : jstring; object : jstring; created : Z; model : JsValue;
       choices : list Choice }.
End Chunk.

(** [v.candidates?.[0]?.content?.parts?.[0]?.text || ''] *)
Definition candidate_text (v : JsValue) : Res JsValue :=
  candidates <- Js.get v (js "candidates") ;;
  Ok (Js.or
        (Js.opt_get
           (Js.opt_first
              (Js.opt_get (Js.opt_get (Js.opt_first candidates) (js "content"))
                 (js "parts")))
           (js "text"))
        (JStr [])).

(** [geminiResponse.usageMetadata?.k || 0] *)
Definition usage_count (geminiResponse : JsValue) (k : jstring) : Res JsValue :=
  usageMetadata <- Js.get geminiResponse (js "usageMetadata") ;;
  Ok (Js.or (Js.opt_get usageMetadata k) (JNum (num_of_Z 0))).

Definition completion (env : Env) (geminiResponse model content : JsValue)
  : Res Completion.t :=
  p <- usage_count geminiResponse (js "promptTokenCount") ;;
  c <- usage_count geminiResponse (js "candidatesTokenCount") ;;
  t <- usage_count geminiResponse (js "totalTokenCount") ;;
  Ok {| Completion.id := chatcmpl_id env;
        Completion.object := js "chat.completion";
        Completion.created := unix_seconds env;
        Completion.model := model;
        Completion.choices :=
          [ {| Completion.index := 0;
               Completion.message :=
                 {| Completion.role := js "assistant";
                    Completion.content := content |};
               Completion.finish_reason := js "stop" |} ];
        Completion.usage :=
          {| Completion.prompt_tokens := p;
             Completion.completion_tokens := c;
             Completion.total_tokens := t |} |}.

(** The placeholder of the fallback variant: U+55B5 followed by a tilde. *)
Definition placeholder : jstring := [21941%N; 126%N].

(* ================================================================== *)
(** ** The outgoing connection *)

(** [res.write(`data: ${JSON.stringify(chunk)}\n\n`)] is recorded as the
    chunk it carries, [res.write(`data: [DONE]\n\n`)] as [Done]. *)
Inductive SseEvent :=
| ChunkEvent (c : Chunk.t)
| Done.

Inductive ResCall :=
| Write (e : SseEvent)
| End.

Definition is_end (c : ResCall) : bool :=
  match c with
  | End => true
  | Write _ => false
  end.

(** [res.writableEnded] *)
Definition writableEnded (res : list ResCall) : bool := existsb is_end res.

(** The frames written so far, in order. *)
Fixpoint written (res : list ResCall) : list SseEvent :=
  match res with
  | [] => []
  | Write e :: res' => e :: written res'
  | End :: res' => written res'
  end.

(** What arrives on the backend stream.  A chunk is given by the text
    [chunk.toString()] yields; the chunks of a stream cut its text, so a cut
    inside a character of several bytes is not represented. *)
Inductive StreamEvent :=
| OnData (chunk : jstring)
| OnEnd
| OnError.

(* ================================================================== *)
(** ** The baseline and Vercel variants: no placeholder *)

Module Baseline.

Definition geminiToOpenAIResponse (env : Env) (geminiResponse model : JsValue)
  : Res Completion.t :=
  content <- candidate_text geminiResponse ;;
  completion env geminiResponse model content.

End Baseline.

(* ================================================================== *)
(** ** The fallback variant *)

Module Fallback.

Definition geminiToOpenAIResponse (env : Env) (geminiResponse model : JsValue)
  : Res Completion.t :=
  content <- candidate_text geminiResponse ;;
  trimmed <- Js.trim content ;;
  let content :=
    if Js.to_boolean (JStr trimmed) then content else JStr placeholder in
  completion env geminiResponse model content.

(** The variables [transformGeminiStreamToOpenAIStream] closes over, and
    the connection it writes to. *)
Record Stream :=
  mkStream { buffer : jstring;
             id : jstring;
             created : Z;
             model : JsValue;
             hasSentContent : bool;
             res : list ResCall }.

Definition set_buffer (b : jstring) (st : Stream) : Stream :=
  {| buffer := b; id := id st; created := created st; model := model st;
     hasSentContent := hasSentContent st; res := res st |}.

Definition set_hasSentContent (st : Stream) : Stream :=
  {| buffer := buffer st; id := id st; created := created st; model := model st;
     hasSentContent := true; res := res st |}.

Definition call (c : ResCall) (st : Stream) : Stream :=
  {| buffer := buffer st; id := id st; created := created st; model := model st;
     hasSentContent := hasSentContent st; res := res st ++ [c] |}.

Definition chunk (st : Stream) (delta : Chunk.Delta) (finish : option jstring)
  : Chunk.t :=
  {| Chunk.id := id st;
     Chunk.object := js "chat.completion.chunk";
     Chunk.created := created st;
     Chunk.model := model st;
     Chunk.choices :=
       [ {| Chunk.index := 0; Chunk.delta := delta;
            Chunk.finish_reason := finish |} ] |}.

Definition content_chunk (st : Stream) (content : JsValue) : Chunk.t :=
  chunk st {| Chunk.content := Some content |} None.

Definition doneChunk (st : Stream) : Chunk.t :=
  chunk st {| Chunk.content := None |} (Some (js "stop")).

(** The body of the [try]. *)
Definition try_frame (st : Stream) (jsonString : jstring) : Res Stream :=
  geminiChunk <- JSON.parse jsonString ;;
  content <- candidate_text geminiChunk ;;
  if Js.to_boolean content
  then Ok (call (Write (ChunkEvent (content_chunk st content)))
             (set_hasSentContent st))
  else Ok st.

(** One turn of the [while] loop, [boundary] being the position found. *)
Definition turn (st : Stream) (boundary : nat) : Stream :=
  let jsonString :=
    strip_prefix (js "data: ") (substring_to boundary (buffer st)) in
  let st := set_buffer (substring_from (boundary + 2) (buffer st)) st in
  match try_frame st jsonString with
  | Ok st' => st'
  | Throw _ => st
  end.

Definition delimiter : jstring := lf ++ lf.

(** The [while (boundary !== -1)] loop; every turn shortens the buffer,
    so its length bounds the number of turns (see [drain_unfold]). *)
Fixpoint drain (turns : nat) (st : Stream) : Stream :=
  match turns with
  | O => st
  | S turns' =>
      match indexOf delimiter (buffer st) with
      | None => st
      | Some boundary => drain turns' (turn st boundary)
      end
  end.

Definition on_data (st : Stream) (chunk : jstring) : Stream :=
  let st := set_buffer (buffer st ++ chunk) st in
  drain (length (buffer st)) st.

Definition on_end (st : Stream) : Stream :=
  let st :=
    if negb (hasSentContent st)
    then call (Write (ChunkEvent (content_chunk st (JStr placeholder)))) st
    else st in
  call End (call (Write Done) (call (Write (ChunkEvent (doneChunk st))) st)).

Definition on_error (st : Stream) : Stream :=
  if negb (writableEnded (res st)) then call End st else st.

(** The state when [transformGeminiStreamToOpenAIStream] returns, the
    handlers registered and nothing received yet. *)
Definition transformGeminiStreamToOpenAIStream
  (env : Env) (res : list ResCall) (model : JsValue) : Stream :=
  {| buffer := [];
     id := chatcmpl_id env;
     created := unix_seconds env;
     model := model;
     hasSentContent := false;
     res := res |}.

Definition handle (st : Stream) (ev : StreamEvent) : Stream :=
  match ev with
  | OnData chunk => on_data st chunk
  | OnEnd => on_end st
  | OnError => on_error st
  end.

Definition run (st : Stream) (evs : list StreamEvent) : Stream :=
  fold_left handle evs st.

(** A call on [res] that writes a chunk writes one stamped with the given
    [id] and [created]. *)
Definition stamped (i : jstring) (t : Z) (c : ResCall) : Prop :=
  match c with
  | Write (ChunkEvent ch) => Chunk.id ch = i /\ Chunk.created ch = t
  | _ => True
  end.

(** What holds of a stream all along one exchange: the identifier, the
    timestamp and the model are the ones fixed at the start, every chunk
    written carries them, and the flag is set only once something has been
    written. *)
Record Inv (i : jstring) (t : Z) (m : JsValue) (st : Stream) : Prop :=
  mkInv { inv_id : id st = i;
          inv_created : created st = t;
          inv_model : model st = m;
          inv_res : Forall (stamped i t) (res st);
          inv_flag : hasSentContent st = true -> res st <> [] }.

(** The loop run until no delimiter is left in the buffer. *)
Definition drained (st : Stream) : Stream := drain (length (buffer st)) st.

(** The content a frame makes the loop write, if it makes it write. *)
Definition frame_content (jsonString : jstring) : option JsValue :=
  match (geminiChunk <- JSON.parse jsonString ;; candidate_text geminiChunk) with
  | Ok content => if Js.to_boolean content then Some content else None
  | Throw _ => None
  end.

End Fallback.

(* ================================================================== *)
(** ** The Vercel variant: the chat-completions route *)

Module Vercel.

(** What the route reads of the request. *)
Record Request :=
  mkRequest { authorization : option jstring;   (* [headers['authorization']] *)
              body : JsValue }.

Definition getApiKey (request : Request) : option jstring :=
  match authorization request with
  | None => None
  | Some authHeader =>
      if negb (Js.to_boolean (JStr authHeader))
         || negb (startsWith (js "Bearer ") authHeader)
      then None
      else Some (substring_from 7 authHeader)
  end.

(** One [axios.post]: the URL is
    [`${GEMINI_API_ENDPOINT}/models/${model}${verb}?key=${key}`], kept in
    its parts. *)
Record AxiosPost :=
  mkPost { post_model : JsValue;
           post_verb : jstring;
           post_key : jstring;
           post_data : GeminiRequest;
           post_responseType : option jstring }.

(** The backend answers, or the call is rejected, with or without an
    [error.response] carrying a status and a body. *)
Inductive AxiosOutcome :=
| Resolves (data : JsValue)
| Rejects (response : option (Z * JsValue)).

Inductive Payload :=
| ErrorPayload (message : JsValue) (code : option Z)
| CompletionPayload (c : Completion.t).

(** [res.status(status).json(payload)] *)
Record Reply := mkReply { status : Z; payload : Payload }.

Inductive Failure :=
| Thrown (e : Exn)
| AxiosError (response : option (Z * JsValue)).

(** The [catch] block. *)
Definition catch (error : Failure) : Reply :=
  match error with
  | AxiosError (Some (status, data)) =>
      {| status := status; payload := ErrorPayload data (Some status) |}
  | _ =>
      {| status := 500;
         payload :=
           ErrorPayload (JStr (js "An internal error occurred in the proxy."))
             (Some 500%Z) |}
  end.

Definition unauthorized : Reply :=
  {| status := 401;
     payload :=
       ErrorPayload (JStr (js "Authorization header is missing or invalid."))
         None |}.

Definition streaming_refused : Reply :=
  {| status := 400;
     payload :=
       ErrorPayload
         (JStr (js "Streaming is not supported in this Vercel deployment."))
         None |}.

(** [app.post('/v1/chat/completions', ...)]: the backend calls made, in
    order, and the reply sent. *)
Definition chat_completions (env : Env) (backend : AxiosPost -> AxiosOutcome)
  (req : Request) : list AxiosPost * Reply :=
  match getApiKey req with
  | None => ([], unauthorized)
  | Some apiKey =>
      if negb (Js.to_boolean (JStr apiKey)) then ([], unauthorized)
      else
        let openaiRequest := body req in
        match Js.get openaiRequest (js "stream") with
        | Throw e => ([], catch (Thrown e))
        | Ok stream =>
            if Js.to_boolean stream then ([], streaming_refused)
            else
              match
                (geminiRequest <- openaiToGeminiRequest openaiRequest ;;
                 m <- Js.get openaiRequest (js "model") ;;
                 Ok (geminiRequest, Js.or m (JStr (js "gemini-1.5-flash"))))
              with
              | Throw e => ([], catch (Thrown e))
              | Ok (geminiRequest, model) =>
                  let post :=
                    {| post_model := model;
                       post_verb := js ":generateContent";
                       post_key := apiKey;
                       post_data := geminiRequest;
                       post_responseType := None |} in
                  match backend post with
                  | Rejects response => ([post], catch (AxiosError response))
                  | Resolves data =>
                      match Baseline.geminiToOpenAIResponse env data model with
                      | Throw e => ([post], catch (Thrown e))
                      | Ok openaiResponse =>
                          ([post],
                           {| status := 200;
                              payload := CompletionPayload openaiResponse |})
                      end
                  end
              end
        end
  end.

End Vercel.

(* ================================================================== *)
(** ** The baseline variant: the stream re-framer *)

Module BaselineStream.

(** The variables [transformGeminiStreamToOpenAIStream] closes over in the
    variant without placeholder, and the connection it writes to. *)
Record Stream :=
  mkStream { buffer : jstring;
             id : jstring;
             created : Z;
             model : JsValue;
             res : list ResCall }.

Definition set_buffer (b : jstring) (st : Stream) : Stream :=
  {| buffer := b; id := id st; created := created st; model := model st;
     res := res st |}.

Definition call (c : ResCall) (st : Stream) : Stream :=
  {| buffer := buffer st; id := id st; created := created st; model := model st;
     res := res st ++ [c] |}.

Definition chunk (st : Stream) (delta : Chunk.Delta) (finish : option jstring)
  : Chunk.t :=
  {| Chunk.id := id st;
     Chunk.object := js "chat.completion.chunk";
     Chunk.created := created st;
     Chunk.model := model st;
     Chunk.choices :=
       [ {| Chunk.index := 0; Chunk.delta := delta;
            Chunk.finish_reason := finish |} ] |}.

(** The body of the [try]. *)
Definition try_frame (st : Stream) (jsonString : jstring) : Res Stream :=
  geminiChunk <- JSON.parse jsonString ;;
  content <- candidate_text geminiChunk ;;
  if Js.to_boolean content
  then Ok (call (Write (ChunkEvent
                          (chunk st {| Chunk.content := Some content |} None)))
             st)
  else Ok st.

Definition turn (st : Stream) (boundary : nat) : Stream :=
  let jsonString :=
    strip_prefix (js "data: ") (substring_to boundary (buffer st)) in
  let st := set_buffer (substring_from (boundary + 2) (buffer st)) st in
  match try_frame st jsonString with
  | Ok st' => st'
  | Throw _ => st
  end.

Fixpoint drain (turns : nat) (st : Stream) : Stream :=
  match turns with
  | O => st
  | S turns' =>
      match indexOf Fallback.delimiter (buffer st) with
      | None => st
      | Some boundary => drain turns' (turn st boundary)
      end
  end.

Definition on_data (st : Stream) (chunk : jstring) : Stream :=
  let st := set_buffer (buffer st ++ chunk) st in
  drain (length (buffer st)) st.

Definition on_end (st : Stream) : Stream :=
  call End
    (call (Write Done)
       (call (Write (ChunkEvent
                       (chunk st {| Chunk.content := None |} (Some (js "stop")))))
          st)).

Definition on_error (st : Stream) : Stream :=
  if negb (writableEnded (res st)) then call End st else st.

Definition transformGeminiStreamToOpenAIStream
  (env : Env) (res : list ResCall) (model : JsValue) : Stream :=
  {| buffer := [];
     id := chatcmpl_id env;
     created := unix_seconds env;
     model := model;
     res := res |}.

Definition handle (st : Stream) (ev : StreamEvent) : Stream :=
  match ev with
  | OnData chunk => on_data st chunk
  | OnEnd => on_end st
  | OnError => on_error st
  end.

Definition run (st : Stream) (evs : list StreamEvent) : Stream :=
  fold_left handle evs st.

(** The state of the fallback variant that has the same variables. *)
Definition with_flag (flag : bool) (st : Stream) : Fallback.Stream :=
  {| Fallback.buffer := buffer st;
     Fallback.id := id st;
     Fallback.created := created st;
     Fallback.model := model st;
     Fallback.hasSentContent := flag;
     Fallback.res := res st |}.

End BaselineStream.

(* ================================================================== *)
(** ** The chat-completions route of the two streaming variants *)

Module Gateway.

(** [res.writeHead(status, headers)] *)
Record Head := mkHead { head_status : Z; head_headers : list (jstring * jstring) }.

Definition event_stream_head : Head :=
  {| head_status := 200;
     head_headers :=
       [ (js "Content-Type", js "text/event-stream");
         (js "Cache-Control", js "no-cache");
         (js "Connection", js "keep-alive") ] |}.

(** A call with [responseType: 'stream'] resolves with a stream, given by
    the events it will deliver, or is rejected, with or without an
    [error.response]; the body of such a response is itself an unread
    stream, so only its status is kept. *)
Inductive StreamOutcome :=
| StreamResolves (events : list StreamEvent)
| StreamRejects (response : option Z).

Record Backend :=
  mkBackend { post_json : Vercel.AxiosPost -> Vercel.AxiosOutcome;
              post_stream : Vercel.AxiosPost -> StreamOutcome }.

(** What the client is sent: a JSON reply; the JSON error reply whose
    message is the backend's unread stream; an event stream, with the calls
    made on the connection while the backend stream lasted; or nothing. *)
Inductive Answer :=
| Json (r : Vercel.Reply)
| JsonStreamError (status : Z)
| EventStream (head : Head) (log : list ResCall)
| Nothing.

Section Route.

(** The two helpers in which the variants differ: [geminiToOpenAIResponse],
    and the calls [transformGeminiStreamToOpenAIStream] makes on a fresh
    connection as the events arrive. *)
Variable translate : Env -> JsValue -> JsValue -> Res Completion.t.
Variable reframe : Env -> JsValue -> list StreamEvent -> list ResCall.

(** The [catch] block. Nothing has been sent at any point where the [try]
    can throw, so [res.headersSent] is false there and the reply depends
    on [res.writable] alone. *)
Definition caught (writable : bool) (error : Vercel.Failure) : Answer :=
  if writable then Json (Vercel.catch error) else Nothing.

Definition chat_completions (env : Env) (writable : bool) (backend : Backend)
  (req : Vercel.Request) : list Vercel.AxiosPost * Answer :=
  match Vercel.getApiKey req with
  | None => ([], Json Vercel.unauthorized)
  | Some apiKey =>
      if negb (Js.to_boolean (JStr apiKey)) then ([], Json Vercel.unauthorized)
      else
        let openaiRequest := Vercel.body req in
        match
          (geminiRequest <- openaiToGeminiRequest openaiRequest ;;
           m <- Js.get openaiRequest (js "model") ;;
           stream <- Js.get openaiRequest (js "stream") ;;
           Ok (geminiRequest, Js.or m (JStr (js "gemini-1.5-flash")), stream))
        with
        | Throw e => ([], caught writable (Vercel.Thrown e))
        | Ok (geminiRequest, model, stream) =>
            if Js.to_boolean stream then
              let post :=
                {| Vercel.post_model := model;
                   Vercel.post_verb := js ":streamGenerateContent";
                   Vercel.post_key := apiKey;
                   Vercel.post_data := geminiRequest;
                   Vercel.post_responseType := Some (js "stream") |} in
              match post_stream backend post with
              | StreamRejects None =>
                  ([post], caught writable (Vercel.AxiosError None))
              | StreamRejects (Some status) =>
                  ([post], if writable then JsonStreamError status else Nothing)
              | StreamResolves events =>
                  ([post], EventStream event_stream_head (reframe env model events))
              end
            else
              let post :=
                {| Vercel.post_model := model;
                   Vercel.post_verb := js ":generateContent";
                   Vercel.post_key := apiKey;
                   Vercel.post_data := geminiRequest;
                   Vercel.post_responseType := None |} in
              match post_json backend post with
              | Vercel.Rejects response =>
                  ([post], caught writable (Vercel.AxiosError response))
              | Vercel.Resolves data =>
                  match translate env data model with
                  | Throw e => ([post], caught writable (Vercel.Thrown e))
                  | Ok openaiResponse =>
                      ([post],
                       Json {| Vercel.status := 200;
                               Vercel.payload :=
                                 Vercel.CompletionPayload openaiResponse |})
                  end
              end
        end
  end.

End Route.

(** The route of [gemini-converter-vercel/api/index.js]. *)
Definition fallback_route :=
  chat_completions Fallback.geminiToOpenAIResponse
    (fun env model events =>
       Fallback.res
         (Fallback.run
            (Fallback.transformGeminiStreamToOpenAIStream env [] model) events)).

(** The route of the baseline variant. *)
Definition baseline_route :=
  chat_completions Baseline.geminiToOpenAIResponse
    (fun env model events =>
       BaselineStream.res
         (BaselineStream.run
            (BaselineStream.transformGeminiStreamToOpenAIStream env [] model)
            events)).

End Gateway.

(* ================================================================== *)
(** ** The model-list route, shared by the three variants *)

Module ModelsRoute.

(** [s.replace(p, '')] for a string [p]: the first occurrence is removed. *)
Definition remove_first (p s : jstring) : jstring :=
  match indexOf p s with
  | Some k => firstn k s ++ skipn (k + length p) s
  | None => s
  end.

(** [v.includes(lit)]: membership for an array, containment for a string;
    no other JSON value has the method. *)
Definition includes (v : JsValue) (lit : jstring) : Res bool :=
  match v with
  | JArr elems => Ok (existsb (Js.is_string lit) elems)
  | JStr s => Ok (match indexOf lit s with Some _ => true | None => false end)
  | _ => Throw TypeError
  end.

(** [v.replace(p, '')]: only a string has the method. *)
Definition replace (v : JsValue) (p : jstring) : Res jstring :=
  match v with
  | JStr s => Ok (remove_first p s)
  | _ => Throw TypeError
  end.

(** The elements of the receiver of [.filter(...)]: only an array has the
    method. *)
Definition array_elements (v : JsValue) : Res (list JsValue) :=
  match v with
  | JArr elems => Ok elems
  | _ => Throw TypeError
  end.

Record Model :=
  mkModel { id : jstring; object : jstring; created : Z; owned_by : jstring }.

Inductive Payload :=
| ErrorPayload (message : JsValue) (code : option Z)
| ListPayload (data : list Model).

Record Reply := mkReply { status : Z; payload : Payload }.

(** The callback of [filter]. *)
Definition supports (model : JsValue) : Res bool :=
  methods <- Js.get model (js "supportedGenerationMethods") ;;
  includes methods (js "generateContent").

Fixpoint filter (items : list JsValue) : Res (list JsValue) :=
  match items with
  | [] => Ok []
  | x :: items' =>
      keep <- supports x ;;
      rest <- filter items' ;;
      Ok (if keep then x :: rest else rest)
  end.

(** The callback of [map]; [now] is what [Date.now()] answers in it. *)
Definition openai_model (now : Z) (model : JsValue) : Res Model :=
  name <- Js.get model (js "name") ;;
  id <- replace name (js "models/") ;;
  Ok {| id := id; object := js "model"; created := (now / 1000)%Z;
        owned_by := js "google" |}.

(** [clock n] is the answer of the call of [Date.now()] number [n] of the
    request. *)
Fixpoint map_models (clock : nat -> Z) (n : nat) (items : list JsValue)
  : Res (list Model) :=
  match items with
  | [] => Ok []
  | x :: items' =>
      m <- openai_model (clock n) x ;;
      rest <- map_models clock (S n) items' ;;
      Ok (m :: rest)
  end.

Definition unauthorized : Reply :=
  {| status := 401;
     payload :=
       ErrorPayload (JStr (js "Authorization header is missing or invalid."))
         None |}.

(** The [catch] block. *)
Definition catch (error : Vercel.Failure) : Reply :=
  match error with
  | Vercel.AxiosError (Some (status, data)) =>
      {| status := status; payload := ErrorPayload data (Some status) |}
  | _ =>
      {| status := 500;
         payload :=
           ErrorPayload
             (JStr (js "Failed to fetch models from Google Gemini API."))
             (Some 500%Z) |}
  end.

(** [app.get('/v1/models', ...)]: the keys of the backend calls made (the
    URL is [`${GEMINI_API_ENDPOINT}/models?key=${apiKey}`]) and the
    reply. *)
Definition models (clock : nat -> Z) (backend : jstring -> Vercel.AxiosOutcome)
  (req : Vercel.Request) : list jstring * Reply :=
  match Vercel.getApiKey req with
  | None => ([], unauthorized)
  | Some apiKey =>
      if negb (Js.to_boolean (JStr apiKey)) then ([], unauthorized)
      else
        match backend apiKey with
        | Vercel.Rejects response =>
            ([apiKey], catch (Vercel.AxiosError response))
        | Vercel.Resolves data =>
            match
              (ms <- Js.get data (js "models") ;;
               items <- array_elements ms ;;
               kept <- filter items ;;
               map_models clock 0 kept)
            with
            | Throw e => ([apiKey], catch (Vercel.Thrown e))
            | Ok openaiModels =>
                ([apiKey],
                 {| status := 200; payload := ListPayload openaiModels |})
            end
        end
  end.

End ModelsRoute.

(* ================================================================== *)
(** ** Sample data and expected frames *)

(** The JSON text of an object whose [candidates[0].content.parts[0].text]
    is the string Hi, written without white space, and the stream frame
    that carries it. *)
Definition hi_payload : jstring :=
  js "{" ++ dq ++ js "candidates" ++ dq ++ js ":[{" ++ dq ++ js "content" ++ dq
  ++ js ":{" ++ dq ++ js "parts" ++ dq ++ js ":[{" ++ dq ++ js "text" ++ dq
  ++ js ":" ++ dq ++ js "Hi" ++ dq ++ js "}]}}]}".

Definition hi_frame : jstring := js "data: " ++ hi_payload.

(** The backend response [{ candidates: [{ content: { parts: [{ text }] } }] }]. *)
Definition response_with_text (s : jstring) : JsValue :=
  JObj [(js "candidates",
         JArr [JObj [(js "content",
                      JObj [(js "parts",
                             JArr [JObj [(js "text", JStr s)]])])]])].

Definition sample_env : Env := {| random := js "0.7312045"; now := 1700000000123 |}.
Definition sample_model : JsValue := JStr (js "gemini-1.5-flash").

(** The two chunks written when a stream ends without having written any
    content, and the one that ends every stream. *)
Definition fallback_chunk (env : Env) (model : JsValue) : Chunk.t :=
  {| Chunk.id := chatcmpl_id env;
     Chunk.object := js "chat.completion.chunk";
     Chunk.created := unix_seconds env;
     Chunk.model := model;
     Chunk.choices :=
       [ {| Chunk.index := 0;
            Chunk.delta := {| Chunk.content := Some (JStr placeholder) |};
            Chunk.finish_reason := None |} ] |}.

Definition terminal_chunk (env : Env) (model : JsValue) : Chunk.t :=
  {| Chunk.id := chatcmpl_id env;
     Chunk.object := js "chat.completion.chunk";
     Chunk.created := unix_seconds env;
     Chunk.model := model;
     Chunk.choices :=
       [ {| Chunk.index := 0;
            Chunk.delta := {| Chunk.content := None |};
            Chunk.finish_reason := Some (js "stop") |} ] |}.

(* ================================================================== *)
(** ** Frames of a stream, as the properties speak of them *)

(** A frame that the blank line behind it ends: this blank line is the
    first one in sight. *)
Definition terminated (frame : jstring) : Prop :=
  indexOf Fallback.delimiter (frame ++ Fallback.delimiter) = Some (length frame).

(** The text of a stream made of the given frames, each followed by its
    blank line, and of a tail. *)
Definition stream_text (frames : list jstring) (tail : jstring) : jstring :=
  concat (map (fun f => f ++ Fallback.delimiter) frames) ++ tail.

(** The contents of the frames that have one, in order. *)
Definition frame_contents (frames : list jstring) : list JsValue :=
  flat_map
    (fun f =>
       match Fallback.frame_content (strip_prefix (js "data: ") f) with
       | Some c => [c]
       | None => []
       end)
    frames.

(** The chunk every content chunk of an exchange is, given its content. *)
Definition content_chunk_of (env : Env) (model content : JsValue) : Chunk.t :=
  {| Chunk.id := chatcmpl_id env;
     Chunk.object := js "chat.completion.chunk";
     Chunk.created := unix_seconds env;
     Chunk.model := model;
     Chunk.choices :=
       [ {| Chunk.index := 0;
            Chunk.delta := {| Chunk.content := Some content |};
            Chunk.finish_reason := None |} ] |}.

(** A call that writes a content chunk: a truthy [delta.content] and a null
    [finish_reason]. *)
Definition content_call (c : ResCall) : Prop :=
  match c with
  | Write (ChunkEvent ch) =>
      exists v,
        Chunk.choices ch =
          [ {| Chunk.index := 0;
               Chunk.delta := {| Chunk.content := Some v |};
               Chunk.finish_reason := None |} ]
        /\ Js.to_boolean v = true
  | _ => False
  end.

(** A model of the backend's list: its short name and the generation
    methods it supports; [model_entry] is the JSON object the backend
    sends for it. *)
Definition model_entry (m : jstring * list jstring) : JsValue :=
  JObj [ (js "name", JStr (js "models/" ++ fst m));
         (js "displayName", JStr (fst m));
         (js "supportedGenerationMethods", JArr (map JStr (snd m))) ].

Definition supports_generateContent (m : jstring * list jstring) : bool :=
  existsb (fun x => JsString.eqb x (js "generateContent")) (snd m).

(** The call the chat-completions routes make for a body and its
    mapping. *)
Definition post_for (verb : jstring) (responseType : option jstring)
  (key : jstring) (body : JsValue) (g : GeminiRequest) : Vercel.AxiosPost :=
  {| Vercel.post_model :=
       Js.or (Js.opt_get body (js "model")) (JStr (js "gemini-1.5-flash"));
     Vercel.post_verb := verb;
     Vercel.post_key := key;
     Vercel.post_data := g;
     Vercel.post_responseType := responseType |}.

(** The reply of the [catch] blocks of the chat-completions routes when
    the error carries no response. *)
Definition internal_error : Vercel.Reply :=
  {| Vercel.status := 500;
     Vercel.payload :=
       Vercel.ErrorPayload (JStr (js "An internal error occurred in the proxy."))
         (Some 500%Z) |}.

(** A streaming request, and a backend whose stream delivers the Hi frame
    in two chunks and ends. *)
Definition sample_stream_request : Vercel.Request :=
  {| Vercel.authorization := Some (js "Bearer sk-test");
     Vercel.body :=
       JObj [ (js "stream", JBool true);
              (js "messages",
               JArr [JObj [(js "role", JStr (js "user"));
                           (js "content", JStr (js "Hello"))]]) ] |}.

Definition sample_stream_backend : Gateway.Backend :=
  {| Gateway.post_json := fun _ => Vercel.Rejects None;
     Gateway.post_stream :=
       fun _ => Gateway.StreamResolves (map OnData [hi_frame ++ lf; lf] ++ [OnEnd]) |}.

(* ================================================================== *)
(** * Properties *)

(** ** Strings *)

Section StringFacts.

Lemma eqb_eq (a b : jstring) : JsString.eqb a b = true <-> a = b.
Proof.
  revert b; induction a as [|x a IH]; intros [|y b]; simpl;
    try (split; [discriminate | discriminate]); try tauto.
  rewrite andb_true_iff, N.eqb_eq, IH. split.
  - intros [-> ->]; reflexivity.
  - intros H; injection H; auto.
Qed.

Lemma eqb_refl (a : jstring) : JsString.eqb a a = true.
Proof. apply eqb_eq; reflexivity. Qed.

Lemma startsWith_app (p s t : jstring) :
  startsWith p s = true -> startsWith p (s ++ t) = true.
Proof.
  revert s; induction p as [|x p IH]; intros [|y s]; simpl; auto; try discriminate.
  rewrite !andb_true_iff. intros [? ?]; auto.
Qed.

Lemma startsWith_length (p s : jstring) :
  startsWith p s = true -> length p <= length s.
Proof.
  revert s; induction p as [|x p IH]; intros [|y s]; simpl; try discriminate; try lia.
  rewrite andb_true_iff. intros [_ H]. apply IH in H. lia.
Qed.

Lemma indexOf_bound (p s : jstring) (k : nat) :
  indexOf p s = Some k -> k + length p <= length s.
Proof.
  revert k; induction s as [|c s IH]; intros k; simpl.
  - destruct (startsWith p []) eqn:E; [|discriminate].
    intros [= <-]. apply startsWith_length in E. simpl in *; lia.
  - destruct (startsWith p (c :: s)) eqn:E.
    + intros [= <-]. apply startsWith_length in E. simpl in *; lia.
    + destruct (indexOf p s) as [j|]; simpl; [|discriminate].
      intros [= <-]. specialize (IH j eq_refl). lia.
Qed.

(** The first occurrence stays the first one when text is appended. *)
Lemma indexOf_app (p s t : jstring) (k : nat) :
  indexOf p s = Some k -> indexOf p (s ++ t) = Some k.
Proof.
  revert k; induction s as [|c s IH]; intros k; simpl.
  - destruct (startsWith p []) eqn:E; [|discriminate].
    intros [= <-]. destruct p; [|discriminate].
    destruct t; reflexivity.
  - destruct (startsWith p (c :: s)) eqn:E.
    + intros [= <-].
      change (c :: s ++ t) with ((c :: s) ++ t).
      rewrite (startsWith_app _ _ t E). reflexivity.
    + destruct (indexOf p s) as [j|] eqn:Ej; simpl; [|discriminate].
      intros [= <-].
      destruct (startsWith p (c :: s ++ t)) eqn:E'.
      * exfalso.
        apply indexOf_bound in Ej.
        revert E E'. clear - Ej. revert s c Ej.
        destruct p as [|x p]; simpl; [discriminate|].
        intros s c Ej. destruct (N.eqb x c); simpl; [|discriminate].
        revert s Ej. clear. revert j.
        induction p as [|y p IHp]; intros j s Ej; simpl; [discriminate|].
        destruct s as [|d s]; simpl in *; [lia|].
        destruct (N.eqb y d); simpl; [|discriminate].
        apply (IHp j). lia.
      * rewrite (IH j eq_refl). reflexivity.
Qed.

End StringFacts.

(** ** [JSON.parse]: the fuel is enough *)

Section JsonFacts.

Import JSON.

Lemma skip_ws_length (s : jstring) : length (skip_ws s) <= length s.
Proof.
  induction s as [|c s IH]; simpl; [lia|].
  destruct (is_ws c); simpl; lia.
Qed.

Lemma skip_ws_cons (s r : jstring) (c : code_unit) :
  skip_ws s = c :: r -> length r < length s.
Proof.
  intros H. pose proof (skip_ws_length s) as L. rewrite H in L. simpl in L. lia.
Qed.

Lemma cons_char_some (c : code_unit) (x : option (jstring * jstring))
  (cs rest : jstring) :
  cons_char c x = Some (cs, rest) -> exists cs', x = Some (cs', rest).
Proof.
  destruct x as [[cs' rest']|]; simpl; [|discriminate].
  intros [= <- <-]. eauto.
Qed.

Lemma string_chars_length (s cs rest : jstring) :
  string_chars s = Some (cs, rest) -> length rest < length s.
Proof.
  remember (length s) as n eqn:Hn. revert s cs rest Hn.
  induction n as [n IH] using lt_wf_ind. intros s cs rest Hn.
  destruct s as [|c r]; simpl; [discriminate|].
  destruct (c =? 34)%N.
  { intros [= <- <-]. simpl in Hn. lia. }
  destruct (c =? 92)%N.
  - destruct r as [|e r']; [discriminate|].
    destruct (e =? 117)%N.
    + destruct r' as [|h1 [|h2 [|h3 [|h4 r'']]]]; try discriminate.
      destruct (hex_value h1), (hex_value h2), (hex_value h3), (hex_value h4);
        try discriminate.
      intros H. apply cons_char_some in H. destruct H as [cs' H].
      apply (IH (length r'')) in H; simpl in *; try lia.
    + destruct (escape e); [|discriminate].
      intros H. apply cons_char_some in H. destruct H as [cs' H].
      apply (IH (length r')) in H; simpl in *; try lia.
  - destruct (c <? 32)%N; [discriminate|].
    intros H. apply cons_char_some in H. destruct H as [cs' H].
    apply (IH (length r)) in H; simpl in *; try lia.
Qed.

Lemma digits_length (s : jstring) : length (snd (digits s)) <= length s.
Proof.
  induction s as [|c s IH]; simpl; [lia|].
  destruct (is_digit c); simpl; [|lia].
  destruct (digits s); simpl in *. lia.
Qed.

Lemma int_part_length (s r : jstring) (ds : list N) :
  int_part s = Some (ds, r) -> length r < length s.
Proof.
  destruct s as [|c s]; simpl; [discriminate|].
  destruct (c =? 48)%N; [intros [= <- <-]; simpl; lia|].
  destruct (is_digit c); [|discriminate].
  pose proof (digits_length s) as L. destruct (digits s); simpl in *.
  intros [= <- <-]. lia.
Qed.

Lemma frac_part_length (s r : jstring) (ds : list N) :
  frac_part s = Some (ds, r) -> length r <= length s.
Proof.
  destruct s as [|c s]; simpl; [intros [= <- <-]; simpl; lia|].
  destruct (c =? 46)%N; [|intros [= <- <-]; simpl; lia].
  pose proof (digits_length s) as L. destruct (digits s) as [[|d ds'] r']; simpl in *;
    [discriminate|].
  intros [= <- <-]. lia.
Qed.

Lemma exp_sign_length (s : jstring) : length (snd (exp_sign s)) <= length s.
Proof.
  destruct s as [|c s]; simpl; [lia|].
  destruct (c =? 43)%N; simpl; [lia|].
  destruct (c =? 45)%N; simpl; lia.
Qed.

Lemma exp_part_length (s r : jstring) (e : Z) :
  exp_part s = Some (e, r) -> length r <= length s.
Proof.
  destruct s as [|c s]; simpl; [intros [= <- <-]; simpl; lia|].
  destruct ((c =? 101) || (c =? 69))%N; [|intros [= <- <-]; simpl; lia].
  pose proof (exp_sign_length s) as L1.
  destruct (exp_sign s) as [neg r1]. simpl in L1.
  pose proof (digits_length r1) as L2.
  destruct (digits r1) as [[|d ds'] r2]; simpl in *; [discriminate|].
  intros [= <- <-]. lia.
Qed.

Lemma number_length (s r : jstring) (n : JsNumber) :
  number s = Some (n, r) -> length r < length s.
Proof.
  unfold number.
  set (p := match s with
            | [] => (false, s)
            | c :: r0 => if (c =? 45)%N then (true, r0) else (false, s)
            end).
  assert (Hp : length (snd p) <= length s).
  { subst p. destruct s as [|c s]; simpl; [lia|].
    destruct (c =? 45)%N; simpl; lia. }
  destruct p as [neg s1]. simpl in Hp.
  destruct (int_part s1) as [[i s2]|] eqn:Ei; [|discriminate].
  destruct (frac_part s2) as [[f s3]|] eqn:Ef; [|discriminate].
  destruct (exp_part s3) as [[e s4]|] eqn:Ee; [|discriminate].
  intros [= <- <-].
  apply int_part_length in Ei. apply frac_part_length in Ef.
  apply exp_part_length in Ee. lia.
Qed.

Lemma literal_length (lit s r : jstring) (v w : JsValue) :
  lit <> [] -> literal lit v s = POk w r -> length r < length s.
Proof.
  unfold literal. intros Hl. destruct (startsWith lit s) eqn:E; [|discriminate].
  intros [= <- <-]. apply startsWith_length in E.
  rewrite length_skipn. destruct lit; [contradiction|]. simpl in *. lia.
Qed.

Lemma pmap_ok {A B} (f : A -> B) (x : PResult A) (b : B) (r : jstring) :
  pmap f x = POk b r -> exists a, x = POk a r.
Proof. destruct x; simpl; try discriminate. intros [= <- <-]. eauto. Qed.

Lemma pmap_fuel {A B} (f : A -> B) (x : PResult A) :
  pmap f x = PFuel -> x = PFuel.
Proof. destruct x; simpl; try discriminate; reflexivity. Qed.

(** A successful parse has consumed at least one character. *)
Lemma parse_consumes (fuel : nat) :
  (forall s v r, value fuel s = POk v r -> length r < length s)
  /\ (forall s vs r, elements fuel s = POk vs r -> length r < length s)
  /\ (forall s ms r, members fuel s = POk ms r -> length r < length s).
Proof.
  induction fuel as [|fuel (IHv & IHe & IHm)];
    [repeat split; intros; discriminate|].
  split; [|split].
  - intros s v r. simpl.
    pose proof (skip_ws_length s) as Ls.
    destruct (skip_ws s) as [|c s1]; [discriminate|]. simpl in Ls.
    destruct (c =? 91)%N.
    { pose proof (skip_ws_length s1) as L1.
      destruct (skip_ws s1) as [|d s2]; [discriminate|]. simpl in L1.
      destruct (d =? 93)%N; [intros [= <- <-]; lia|].
      intros H. apply pmap_ok in H. destruct H as [a H].
      apply IHe in H. simpl in H. lia. }
    destruct (c =? 123)%N.
    { pose proof (skip_ws_length s1) as L1.
      destruct (skip_ws s1) as [|d s2]; [discriminate|]. simpl in L1.
      destruct (d =? 125)%N; [intros [= <- <-]; lia|].
      intros H. apply pmap_ok in H. destruct H as [a H].
      apply IHm in H. simpl in H. lia. }
    destruct (c =? 34)%N.
    { destruct (string_chars s1) as [[cs rest]|] eqn:E; [|discriminate].
      intros [= <- <-]. apply string_chars_length in E. lia. }
    destruct (c =? 116)%N.
    { intros H. apply literal_length in H; [simpl in H; lia | discriminate]. }
    destruct (c =? 102)%N.
    { intros H. apply literal_length in H; [simpl in H; lia | discriminate]. }
    destruct (c =? 110)%N.
    { intros H. apply literal_length in H; [simpl in H; lia | discriminate]. }
    destruct (number (c :: s1)) as [[n rest]|] eqn:E; [|discriminate].
    intros [= <- <-]. apply number_length in E. simpl in E. lia.
  - intros s vs r. simpl.
    destruct (value fuel s) as [v r1| |] eqn:Ev; try discriminate.
    apply IHv in Ev.
    pose proof (skip_ws_length r1) as L1.
    destruct (skip_ws r1) as [|d r2]; [discriminate|]. simpl in L1.
    destruct (d =? 44)%N.
    { intros H. apply pmap_ok in H. destruct H as [a H]. apply IHe in H. lia. }
    destruct (d =? 93)%N; [|discriminate].
    intros [= <- <-]. lia.
  - intros s ms r. simpl.
    pose proof (skip_ws_length s) as Ls.
    destruct (skip_ws s) as [|q s1]; [discriminate|]. simpl in Ls.
    destruct (q =? 34)%N; [|discriminate].
    destruct (string_chars s1) as [[k r1]|] eqn:Ek; [|discriminate].
    apply string_chars_length in Ek.
    pose proof (skip_ws_length r1) as L1.
    destruct (skip_ws r1) as [|col r2]; [discriminate|]. simpl in L1.
    destruct (col =? 58)%N; [|discriminate].
    destruct (value fuel r2) as [v r3| |] eqn:Ev; try discriminate.
    apply IHv in Ev.
    pose proof (skip_ws_length r3) as L3.
    destruct (skip_ws r3) as [|d r4]; [discriminate|]. simpl in L3.
    destruct (d =? 44)%N.
    { intros H. apply pmap_ok in H. destruct H as [a H]. apply IHm in H. lia. }
    destruct (d =? 125)%N; [|discriminate].
    intros [= <- <-]. lia.
Qed.

(** Two units of fuel a character, and one more, are enough: the parser
    never stops for lack of fuel. *)
Lemma parse_fuel (fuel : nat) :
  (forall s, 2 * length s < fuel -> value fuel s <> PFuel)
  /\ (forall s, 2 * length s + 1 < fuel -> elements fuel s <> PFuel)
  /\ (forall s, 2 * length s + 1 < fuel -> members fuel s <> PFuel).
Proof.
  induction fuel as [|fuel (IHv & IHe & IHm)];
    [repeat split; intros; lia|].
  destruct (parse_consumes fuel) as (Cv & Ce & Cm).
  split; [|split].
  - intros s Hf. simpl.
    pose proof (skip_ws_length s) as Ls.
    destruct (skip_ws s) as [|c s1]; [discriminate|]. simpl in Ls.
    destruct (c =? 91)%N.
    { pose proof (skip_ws_length s1) as L1.
      destruct (skip_ws s1) as [|d s2]; [discriminate|]. simpl in L1.
      destruct (d =? 93)%N; [discriminate|].
      intros H. apply pmap_fuel in H. revert H. apply IHe. simpl. lia. }
    destruct (c =? 123)%N.
    { pose proof (skip_ws_length s1) as L1.
      destruct (skip_ws s1) as [|d s2]; [discriminate|]. simpl in L1.
      destruct (d =? 125)%N; [discriminate|].
      intros H. apply pmap_fuel in H. revert H. apply IHm. simpl. lia. }
    destruct (c =? 34)%N.
    { destruct (string_chars s1) as [[cs rest]|]; discriminate. }
    unfold literal.
    destruct (c =? 116)%N; [destruct (startsWith _ _); discriminate|].
    destruct (c =? 102)%N; [destruct (startsWith _ _); discriminate|].
    destruct (c =? 110)%N; [destruct (startsWith _ _); discriminate|].
    destruct (number (c :: s1)) as [[n rest]|]; discriminate.
  - intros s Hf. simpl.
    destruct (value fuel s) as [v r1| |] eqn:Ev.
    + apply Cv in Ev.
      pose proof (skip_ws_length r1) as L1.
      destruct (skip_ws r1) as [|d r2]; [discriminate|]. simpl in L1.
      destruct (d =? 44)%N.
      { intros H. apply pmap_fuel in H. revert H. apply IHe. lia. }
      destruct (d =? 93)%N; discriminate.
    + discriminate.
    + exfalso. revert Ev. apply IHv. lia.
  - intros s Hf. simpl.
    pose proof (skip_ws_length s) as Ls.
    destruct (skip_ws s) as [|q s1]; [discriminate|]. simpl in Ls.
    destruct (q =? 34)%N; [|discriminate].
    destruct (string_chars s1) as [[k r1]|] eqn:Ek; [|discriminate].
    apply string_chars_length in Ek.
    pose proof (skip_ws_length r1) as L1.
    destruct (skip_ws r1) as [|col r2]; [discriminate|]. simpl in L1.
    destruct (col =? 58)%N; [|discriminate].
    destruct (value fuel r2) as [v r3| |] eqn:Ev.
    + apply Cv in Ev.
      pose proof (skip_ws_length r3) as L3.
      destruct (skip_ws r3) as [|d r4]; [discriminate|]. simpl in L3.
      destruct (d =? 44)%N.
      { intros H. apply pmap_fuel in H. revert H. apply IHm. lia. }
      destruct (d =? 125)%N; discriminate.
    + discriminate.
    + exfalso. revert Ev. apply IHv. lia.
Qed.

(** [JSON.parse] never answers for lack of fuel. *)
Lemma value_fuel (s : jstring) : value (fuel_for s) s <> PFuel.
Proof. apply (proj1 (parse_fuel (fuel_for s))). unfold fuel_for. lia. Qed.

End JsonFacts.

(** ** The stream loop *)

Section StreamFacts.

Import Fallback.

Lemma delimiter_length : length delimiter = 2.
Proof. reflexivity. Qed.

Lemma set_buffer_buffer (b : jstring) (st : Stream) :
  buffer (set_buffer b st) = b.
Proof. reflexivity. Qed.

Lemma set_buffer_twice (a b : jstring) (st : Stream) :
  set_buffer a (set_buffer b st) = set_buffer a st.
Proof. reflexivity. Qed.

Lemma set_buffer_same (st : Stream) : set_buffer (buffer st) st = st.
Proof. destruct st; reflexivity. Qed.

(** The loop body as a function of the frame's content. *)
Lemma turn_spec (st : Stream) (k : nat) :
  let frame := strip_prefix (js "data: ") (substring_to k (buffer st)) in
  let st1 := set_buffer (substring_from (k + 2) (buffer st)) st in
  turn st k =
    match frame_content frame with
    | Some content =>
        call (Write (ChunkEvent (content_chunk st1 content))) (set_hasSentContent st1)
    | None => st1
    end.
Proof.
  intros frame st1. unfold turn, try_frame, frame_content.
  fold frame. fold st1.
  destruct (JSON.parse frame) as [v|e]; simpl; [|reflexivity].
  destruct (candidate_text v) as [c|e]; simpl; [|reflexivity].
  destruct (Js.to_boolean c); reflexivity.
Qed.

Lemma turn_buffer (st : Stream) (k : nat) :
  buffer (turn st k) = substring_from (k + 2) (buffer st).
Proof.
  rewrite turn_spec. destruct (frame_content _); reflexivity.
Qed.

Lemma turn_shorter (st : Stream) (k : nat) :
  indexOf delimiter (buffer st) = Some k ->
  length (buffer (turn st k)) < length (buffer st).
Proof.
  intros H. apply indexOf_bound in H. rewrite delimiter_length in H.
  rewrite turn_buffer. unfold substring_from. rewrite length_skipn. lia.
Qed.

(** The number of turns allowed does not matter once it reaches the length
    of the buffer. *)
Lemma drain_enough (n m : nat) (st : Stream) :
  length (buffer st) <= n -> length (buffer st) <= m -> drain n st = drain m st.
Proof.
  revert m st. induction n as [|n IH]; intros m st Hn Hm.
  - destruct m as [|m]; [reflexivity|]. simpl.
    destruct (buffer st); [reflexivity | simpl in Hn; lia].
  - destruct m as [|m]; simpl.
    + destruct (buffer st); [reflexivity | simpl in Hm; lia].
    + destruct (indexOf delimiter (buffer st)) as [k|] eqn:E; [|reflexivity].
      pose proof (turn_shorter st E). apply IH; lia.
Qed.

(** The loop of the source, as an equation: stop when no delimiter is left,
    otherwise take one turn and go on. *)
Lemma drained_unfold (st : Stream) :
  drained st =
    match indexOf delimiter (buffer st) with
    | None => st
    | Some boundary => drained (turn st boundary)
    end.
Proof.
  unfold drained. destruct (buffer st) as [|c b] eqn:Eb.
  - reflexivity.
  - cbn [length drain]. rewrite Eb.
    destruct (indexOf delimiter (c :: b)) as [k|] eqn:E; [|reflexivity].
    rewrite <- Eb in E. pose proof (turn_shorter st E) as Hlt.
    rewrite Eb in Hlt. simpl in Hlt. apply drain_enough; lia.
Qed.

Lemma on_data_drained (st : Stream) (chunk : jstring) :
  on_data st chunk = drained (set_buffer (buffer st ++ chunk) st).
Proof. reflexivity. Qed.

(** When the loop stops, no delimiter is left in the buffer. *)
Lemma drained_no_delimiter (st : Stream) :
  indexOf delimiter (buffer (drained st)) = None.
Proof.
  remember (length (buffer st)) as n eqn:Hn.
  revert st Hn. induction n as [n IH] using lt_wf_ind. intros st Hn.
  rewrite drained_unfold.
  destruct (indexOf delimiter (buffer st)) as [k|] eqn:E; [|exact E].
  apply (IH (length (buffer (turn st k)))); [|reflexivity].
  subst n. apply turn_shorter; assumption.
Qed.

(** A turn only looks at the buffer up to the end of the delimiter: text
    appended behind it is carried along. *)
Lemma turn_app (st : Stream) (k : nat) (t : jstring) :
  indexOf delimiter (buffer st) = Some k ->
  turn (set_buffer (buffer st ++ t) st) k =
  set_buffer (buffer (turn st k) ++ t) (turn st k).
Proof.
  intros H. apply indexOf_bound in H. rewrite delimiter_length in H.
  rewrite !turn_spec. cbn zeta. rewrite !set_buffer_buffer.
  unfold substring_to, substring_from.
  rewrite firstn_app, skipn_app.
  replace (k - length (buffer st)) with 0 by lia.
  replace (k + 2 - length (buffer st)) with 0 by lia.
  simpl firstn. simpl skipn. rewrite app_nil_r.
  destruct (frame_content _); reflexivity.
Qed.

(** Feeding text to a stream that still had turns to take gives the same
    as taking them first. *)
Lemma drained_app (st : Stream) (t : jstring) :
  drained (set_buffer (buffer st ++ t) st) =
  drained (set_buffer (buffer (drained st) ++ t) (drained st)).
Proof.
  remember (length (buffer st)) as n eqn:Hn.
  revert st Hn. induction n as [n IH] using lt_wf_ind. intros st Hn.
  rewrite (drained_unfold st).
  destruct (indexOf delimiter (buffer st)) as [k|] eqn:E; [|reflexivity].
  rewrite (drained_unfold (set_buffer _ st)), set_buffer_buffer.
  rewrite (indexOf_app _ _ t E), (turn_app _ _ E).
  apply (IH (length (buffer (turn st k)))); [|reflexivity].
  subst n. apply turn_shorter; assumption.
Qed.

(** How the text is cut into chunks does not matter. *)
Lemma on_data_app (st : Stream) (c1 c2 : jstring) :
  on_data (on_data st c1) c2 = on_data st (c1 ++ c2).
Proof.
  rewrite !on_data_drained.
  rewrite <- (drained_app (set_buffer (buffer st ++ c1) st) c2).
  rewrite set_buffer_buffer, set_buffer_twice, app_assoc. reflexivity.
Qed.

Lemma run_app (st : Stream) (evs1 evs2 : list StreamEvent) :
  run st (evs1 ++ evs2) = run (run st evs1) evs2.
Proof. apply fold_left_app. Qed.

Lemma run_data (st : Stream) (chunks : list jstring) :
  indexOf delimiter (buffer st) = None ->
  run st (map OnData chunks) = on_data st (concat chunks).
Proof.
  revert st. induction chunks as [|c chunks IH]; intros st Hst.
  - simpl. rewrite on_data_drained, app_nil_r, set_buffer_same.
    rewrite drained_unfold, Hst. reflexivity.
  - simpl. rewrite IH.
    + apply on_data_app.
    + rewrite on_data_drained. apply drained_no_delimiter.
Qed.

End StreamFacts.

(** ** The invariant of an exchange *)

Section Invariant.

Import Fallback.

Variables (i : jstring) (t : Z) (m : JsValue).

Lemma inv_set_buffer (b : jstring) (st : Stream) :
  Inv i t m st -> Inv i t m (set_buffer b st).
Proof. intros [? ? ? ? ?]; constructor; assumption. Qed.

Lemma inv_call_write_chunk (st : Stream) (d : Chunk.Delta) (f : option jstring) :
  Inv i t m st -> Inv i t m (call (Write (ChunkEvent (chunk st d f))) st).
Proof.
  intros [Hi Ht Hm Hr Hf]; constructor; simpl; auto.
  - apply Forall_app; split; [assumption|].
    constructor; [|constructor]. simpl. auto.
  - intros _ H. apply app_eq_nil in H. destruct H; discriminate.
Qed.

Lemma inv_call_other (st : Stream) (c : ResCall) :
  stamped i t c -> Inv i t m st -> Inv i t m (call c st).
Proof.
  intros Hc [Hi Ht Hm Hr Hf]; constructor; simpl; auto.
  - apply Forall_app; split; [assumption|]. constructor; [assumption|constructor].
  - intros _ H. apply app_eq_nil in H. destruct H; discriminate.
Qed.

Lemma inv_emit (st : Stream) (c : JsValue) :
  Inv i t m st ->
  Inv i t m (call (Write (ChunkEvent (content_chunk st c))) (set_hasSentContent st)).
Proof.
  intros [Hi Ht Hm Hr Hf]; constructor; simpl; auto.
  - apply Forall_app; split; [assumption|].
    constructor; [|constructor]. simpl. auto.
  - intros _ H. apply app_eq_nil in H. destruct H; discriminate.
Qed.

Lemma inv_turn (st : Stream) (k : nat) : Inv i t m st -> Inv i t m (turn st k).
Proof.
  intros H. rewrite turn_spec. cbn zeta.
  destruct (frame_content _).
  - apply inv_emit, inv_set_buffer, H.
  - apply inv_set_buffer, H.
Qed.

Lemma inv_drain (n : nat) (st : Stream) : Inv i t m st -> Inv i t m (drain n st).
Proof.
  revert st. induction n as [|n IH]; intros st H; simpl; [assumption|].
  destruct (indexOf delimiter (buffer st)); [|assumption].
  apply IH, inv_turn, H.
Qed.

Lemma inv_on_data (st : Stream) (c : jstring) :
  Inv i t m st -> Inv i t m (on_data st c).
Proof. intros H. apply inv_drain, inv_set_buffer, H. Qed.

Lemma inv_on_end (st : Stream) : Inv i t m st -> Inv i t m (on_end st).
Proof.
  intros H. unfold on_end.
  set (st1 := if negb (hasSentContent st) then _ else st).
  assert (H1 : Inv i t m st1).
  { subst st1. destruct (negb (hasSentContent st)); [|assumption].
    apply (inv_call_write_chunk _ _ H). }
  apply inv_call_other; [exact I|].
  apply inv_call_other; [exact I|].
  apply (inv_call_write_chunk _ _ H1).
Qed.

Lemma inv_on_error (st : Stream) : Inv i t m st -> Inv i t m (on_error st).
Proof.
  intros H. unfold on_error.
  destruct (negb (writableEnded (res st))); [|assumption].
  apply inv_call_other; [exact I | assumption].
Qed.

Lemma inv_handle (st : Stream) (ev : StreamEvent) :
  Inv i t m st -> Inv i t m (handle st ev).
Proof.
  destruct ev; simpl; auto using inv_on_data, inv_on_end, inv_on_error.
Qed.

Lemma inv_run (evs : list StreamEvent) (st : Stream) :
  Inv i t m st -> Inv i t m (run st evs).
Proof.
  revert st. induction evs as [|ev evs IH]; intros st H; simpl; [assumption|].
  apply IH, inv_handle, H.
Qed.

End Invariant.

Lemma inv_start (env : Env) (model : JsValue) :
  Fallback.Inv (chatcmpl_id env) (unix_seconds env) model
    (Fallback.transformGeminiStreamToOpenAIStream env [] model).
Proof. constructor; simpl; auto; discriminate. Qed.

(** ** The stream re-framer *)

Section Reframer.

Import Fallback.


Lemma frame_content_unparseable (j : jstring) (e : Exn) :
  JSON.parse j = Throw e -> frame_content j = None.
Proof. intros Hp. unfold frame_content. rewrite Hp. reflexivity. Qed.

(** One turn on a buffer that starts with a frame and its delimiter. *)
Lemma turn_first_frame (st : Stream) (frame rest : jstring) :
  buffer st = (frame ++ delimiter) ++ rest ->
  turn st (length frame) =
    let st1 := set_buffer rest st in
    match frame_content (strip_prefix (js "data: ") frame) with
    | Some content =>
        call (Write (ChunkEvent (content_chunk st1 content))) (set_hasSentContent st1)
    | None => st1
    end.
Proof.
  intros Hb. rewrite turn_spec. cbn zeta. rewrite Hb.
  unfold substring_to, substring_from.
  rewrite <- app_assoc, firstn_app, Nat.sub_diag, firstn_all. simpl firstn.
  rewrite app_nil_r.
  rewrite app_assoc, skipn_app.
  replace (length frame + 2) with (length (frame ++ delimiter))
    by (rewrite length_app; reflexivity).
  rewrite skipn_all, Nat.sub_diag. reflexivity.
Qed.




Lemma on_end_res (i : jstring) (t : Z) (m : JsValue) (st : Stream) :
  Inv i t m st ->
  res (on_end st) =
    res st
    ++ (if hasSentContent st then []
        else [Write (ChunkEvent (Chunk.mk i (js "chat.completion.chunk") t m
                [Chunk.mkChoice 0 (Chunk.mkDelta (Some (JStr placeholder))) None]))])
    ++ [Write (ChunkEvent (Chunk.mk i (js "chat.completion.chunk") t m
                [Chunk.mkChoice 0 (Chunk.mkDelta None) (Some (js "stop"))]));
        Write Done; End].
Proof.
  intros [Hi Ht Hm _ _]. unfold on_end, doneChunk, content_chunk, chunk.
  destruct (hasSentContent st); simpl; rewrite Hi, Ht, Hm;
    rewrite <- ?app_assoc; reflexivity.
Qed.

Lemma on_end_last (st : Stream) :
  exists before, res (on_end st) = before ++ [Write Done; End].
Proof.
  unfold on_end.
  set (st1 := if negb (hasSentContent st) then _ else st).
  exists (res st1 ++ [Write (ChunkEvent (doneChunk st1))]).
  simpl. rewrite <- (app_assoc _ [Write Done] [End]). reflexivity.
Qed.

(** While data arrives the connection is not closed. *)
Lemma drain_not_ended (n : nat) (st : Stream) :
  writableEnded (res st) = false -> writableEnded (res (drain n st)) = false.
Proof.
  revert st. induction n as [|n IH]; intros st H; simpl; [assumption|].
  destruct (indexOf delimiter (buffer st)) as [k|]; [|assumption].
  apply IH. rewrite turn_spec. cbn zeta.
  destruct (frame_content _); simpl; [|assumption].
  unfold writableEnded in *. rewrite existsb_app, H. reflexivity.
Qed.

Lemma run_data_not_ended (chunks : list jstring) (st : Stream) :
  writableEnded (res st) = false ->
  writableEnded (res (run st (map OnData chunks))) = false.
Proof.
  revert st. induction chunks as [|c chunks IH]; intros st H; simpl;
    [assumption|].
  apply IH. unfold on_data. apply drain_not_ended. assumption.
Qed.

(** C5 as amended -- Whatever the backend delivered before its stream
    ends: if no content chunk was written while it lasted, the end of the
    stream writes the fallback chunk (placeholder text, [finish_reason]
    null), then the terminal chunk (empty [delta], [finish_reason] "stop"),
    then [DONE], and then closes the connection, in this order and nothing
    else; the last frame written on every stream that ends is [DONE],
    followed by the close; a stream that fails instead is closed behind
    what was written, with no terminal chunk and no [DONE]. *)
Theorem stream_end_fallback_terminal_sentinel_close
  (env : Env) (model : JsValue) (chunks : list jstring) :
  let st0 := transformGeminiStreamToOpenAIStream env [] model in
  (res (run st0 (map OnData chunks)) = [] ->
   res (run st0 (map OnData chunks ++ [OnEnd])) =
     [ Write (ChunkEvent (fallback_chunk env model));
       Write (ChunkEvent (terminal_chunk env model));
       Write Done;
       End ])
  /\ (exists before,
         res (run st0 (map OnData chunks ++ [OnEnd])) = before ++ [Write Done; End])
  /\ res (run st0 (map OnData chunks ++ [OnError]))
     = res (run st0 (map OnData chunks)) ++ [End].
Proof.
  intros st0.
  pose proof (inv_run (map OnData chunks) (inv_start env model)) as Hinv.
  fold st0 in Hinv.
  rewrite !run_app. simpl run. rewrite (on_end_res Hinv).
  split; [|split].
  - intros Hres. rewrite Hres.
    destruct (hasSentContent (run st0 (map OnData chunks))) eqn:Hflag.
    + exfalso. apply (inv_flag Hinv); assumption.
    + reflexivity.
  - rewrite <- (on_end_res Hinv). apply on_end_last.
  - unfold on_error.
    rewrite (run_data_not_ended chunks st0 eq_refl). reflexivity.
Qed.

(** C5 as stated fails: a stream that delivers the Hi frame and then fails
    is closed behind the content chunk; the last frame written is not
    [DONE], and no [DONE] is written at all. *)
Lemma stream_error_ends_without_sentinel :
  res (run (transformGeminiStreamToOpenAIStream sample_env [] sample_model)
         [OnData (hi_frame ++ lf ++ lf); OnError])
  = [ Write (ChunkEvent (content_chunk_of sample_env sample_model (JStr (js "Hi"))));
      End ]
  /\ ~ In (Write Done)
       (res (run (transformGeminiStreamToOpenAIStream sample_env [] sample_model)
               [OnData (hi_frame ++ lf ++ lf); OnError]))
  /\ forall before,
      res (run (transformGeminiStreamToOpenAIStream sample_env [] sample_model)
             [OnData (hi_frame ++ lf ++ lf); OnError])
      <> before ++ [Write Done; End].
Proof.
  assert (H : res (run (transformGeminiStreamToOpenAIStream sample_env [] sample_model)
                     [OnData (hi_frame ++ lf ++ lf); OnError])
              = [ Write (ChunkEvent
                           (content_chunk_of sample_env sample_model (JStr (js "Hi"))));
                  End ]) by (vm_compute; reflexivity).
  rewrite H. split; [reflexivity|]. split.
  - intros [E | [E | []]]; discriminate.
  - intros before E.
    destruct before as [|x [|y before]]; simpl in E; try discriminate.
    injection E as _ _ E. destruct before; discriminate.
Qed.

(** A stream made of one frame without content: the four calls, in order. *)
Lemma stream_end_fallback_on_empty_frame :
  res (run (transformGeminiStreamToOpenAIStream sample_env [] sample_model)
         (map OnData [js "data: {}" ++ lf; lf] ++ [OnEnd])) =
    [ Write (ChunkEvent (fallback_chunk sample_env sample_model));
      Write (ChunkEvent (terminal_chunk sample_env sample_model));
      Write Done;
      End ].
Proof.
  apply (proj1 (stream_end_fallback_terminal_sentinel_close
                  sample_env sample_model [js "data: {}" ++ lf; lf])).
  vm_compute. reflexivity.
Defined.

(** A buffer made of frames that do not parse is consumed without a
    write. *)
Lemma drained_unparseable (frames : list jstring) (st : Stream) :
  Forall (fun f =>
            indexOf delimiter (f ++ delimiter) = Some (length f)
            /\ JSON.parse (strip_prefix (js "data: ") f) = Throw SyntaxError)
         frames ->
  drained (set_buffer (concat (map (fun f => f ++ delimiter) frames)) st) =
  set_buffer [] st.
Proof.
  induction 1 as [|f frames [Hfirst Hparse] _ IH]; simpl.
  - rewrite drained_unfold. reflexivity.
  - rewrite drained_unfold, set_buffer_buffer.
    rewrite (indexOf_app _ _ _ Hfirst).
    rewrite (turn_first_frame _ f (concat (map (fun f => f ++ delimiter) frames)));
      [|apply set_buffer_buffer].
    rewrite (frame_content_unparseable _ Hparse). cbn zeta.
    rewrite set_buffer_twice. exact IH.
Qed.

(** C6 -- A backend stream made only of frames whose payload [JSON.parse]
    rejects, cut into chunks in any way: while it lasts nothing is written
    (each frame is dropped, the next one is processed); when it ends, the
    terminal chunk and [DONE] are written and the connection is closed, the
    fallback chunk of this variant coming first since no content went
    out. *)
Theorem unparseable_stream_terminates_cleanly
  (env : Env) (model : JsValue) (frames chunks : list jstring) :
  Forall (fun f =>
            indexOf delimiter (f ++ delimiter) = Some (length f)
            /\ JSON.parse (strip_prefix (js "data: ") f) = Throw SyntaxError)
         frames ->
  concat chunks = concat (map (fun f => f ++ delimiter) frames) ->
  let st0 := transformGeminiStreamToOpenAIStream env [] model in
  res (run st0 (map OnData chunks)) = []
  /\ buffer (run st0 (map OnData chunks)) = []
  /\ res (run st0 (map OnData chunks ++ [OnEnd])) =
       [ Write (ChunkEvent (fallback_chunk env model));
         Write (ChunkEvent (terminal_chunk env model));
         Write Done;
         End ].
Proof.
  intros Hframes Hchunks st0.
  assert (Hst0 : indexOf delimiter (buffer st0) = None) by reflexivity.
  assert (Hrun : run st0 (map OnData chunks) = st0).
  { rewrite (run_data _ _ Hst0), on_data_drained, Hchunks. simpl buffer.
    simpl app. rewrite (drained_unparseable _ Hframes). reflexivity. }
  rewrite run_app, Hrun. repeat split; reflexivity.
Qed.

(** Two frames that are not JSON, the first cut in the middle. *)
Lemma unparseable_stream_sample :
  res (run (transformGeminiStreamToOpenAIStream sample_env [] sample_model)
         (map OnData [js "data: {" ++ dq ++ js "cand";
                      js "idates" ++ lf ++ lf ++ js "data: oops" ++ lf;
                      lf])) = []
  /\ res (run (transformGeminiStreamToOpenAIStream sample_env [] sample_model)
            (map OnData [js "data: {" ++ dq ++ js "cand";
                         js "idates" ++ lf ++ lf ++ js "data: oops" ++ lf;
                         lf] ++ [OnEnd])) =
       [ Write (ChunkEvent (fallback_chunk sample_env sample_model));
         Write (ChunkEvent (terminal_chunk sample_env sample_model));
         Write Done;
         End ].
Proof.
  destruct (@unparseable_stream_terminates_cleanly sample_env sample_model
              [js "data: {" ++ dq ++ js "candidates"; js "data: oops"]
              [js "data: {" ++ dq ++ js "cand";
               js "idates" ++ lf ++ lf ++ js "data: oops" ++ lf;
               lf])
    as (Hdata & _ & Hend).
  - repeat constructor; vm_compute; reflexivity.
  - vm_compute. reflexivity.
  - split; [exact Hdata | exact Hend].
Defined.

(** C7 -- One exchange, whatever the backend stream does (chunks, end,
    error, in any order): every chunk written on the connection, content,
    fallback or terminal, carries the [id] and the [created] computed once
    when the transformation was set up.  The single response of the
    non-streaming path, when there is one, carries the [id] and [created]
    drawn for it. *)
Theorem exchange_id_and_created_constant
  (env : Env) (model : JsValue) (evs : list StreamEvent) (geminiResponse : JsValue) :
  Forall (fun call =>
            match call with
            | Write (ChunkEvent c) =>
                Chunk.id c = chatcmpl_id env /\ Chunk.created c = unix_seconds env
            | _ => True
            end)
         (res (run (transformGeminiStreamToOpenAIStream env [] model) evs))
  /\ match geminiToOpenAIResponse env geminiResponse model with
     | Ok r =>
         Completion.id r = chatcmpl_id env
         /\ Completion.created r = unix_seconds env
     | Throw _ => True
     end.
Proof.
  split.
  - exact (inv_res (inv_run evs (inv_start env model))).
  - unfold geminiToOpenAIResponse, completion, usage_count.
    destruct (candidate_text geminiResponse) as [c|]; simpl; [|exact I].
    destruct (Js.trim c); simpl; [|exact I].
    destruct (Js.get geminiResponse (js "usageMetadata")); simpl; [|exact I].
    split; reflexivity.
Qed.

End Reframer.

(** ** The request mapper *)

Section RequestMapper.

Lemma get_opt_get (v : JsValue) (k : jstring) :
  Js.nullish v = false -> Js.get v k = Ok (Js.opt_get v k).
Proof. destruct v; simpl; intros H; try discriminate; reflexivity. Qed.

Lemma is_string_eq (lit : jstring) (v : JsValue) :
  Js.is_string lit v = true <-> v = JStr lit.
Proof.
  destruct v; simpl; try (split; discriminate).
  rewrite eqb_eq. split; [intros ->; reflexivity | intros [= ->]; reflexivity].
Qed.

(** The loop pushes, for each message in turn, the entry [content_of]
    describes. *)
Lemma for_of_map_message (msgs : list JsValue) (g : GeminiRequest) :
  forallb (fun m => negb (Js.nullish m)) msgs = true ->
  for_of map_message msgs g =
    Ok {| contents := contents g ++ map content_of msgs;
          generationConfig := generationConfig g;
          safetySettings := safetySettings g |}.
Proof.
  revert g. induction msgs as [|m msgs IH]; intros g H; simpl in *.
  - rewrite app_nil_r. destruct g; reflexivity.
  - apply andb_true_iff in H. destruct H as [Hm H].
    apply negb_true_iff in Hm.
    unfold map_message at 1. rewrite !(get_opt_get _ _ Hm). simpl.
    rewrite (IH _ H). simpl. rewrite <- app_assoc. reflexivity.
Qed.

Lemma messages_of_inv (req : JsValue) (msgs : list JsValue) :
  messages_of req = Some msgs ->
  exists props,
    req = JObj props
    /\ Js.lookup (js "messages") props = JArr msgs
    /\ forallb (fun m => negb (Js.nullish m)) msgs = true.
Proof.
  destruct req as [| | | | | |props]; simpl; try discriminate.
  destruct (Js.lookup (js "messages") props) eqn:E; try discriminate.
  destruct (forallb _ elems) eqn:F; [|discriminate].
  intros [= <-]. exists props. auto.
Qed.

(** The result of the mapper on a ChatRequest, in one equation. *)
Lemma openaiToGeminiRequest_eq (req : JsValue) (msgs : list JsValue) :
  messages_of req = Some msgs ->
  openaiToGeminiRequest req =
    Ok {| contents := map content_of msgs;
          generationConfig :=
            {| maxOutputTokens :=
                 if Js.to_boolean (Js.opt_get req (js "max_tokens"))
                 then Some (Js.opt_get req (js "max_tokens")) else None;
               temperature :=
                 if Js.to_boolean (Js.opt_get req (js "temperature"))
                 then Some (Js.opt_get req (js "temperature")) else None |};
          safetySettings := permissive_safety |}.
Proof.
  intros H. apply messages_of_inv in H. destruct H as (props & -> & Hm & Hall).
  unfold openaiToGeminiRequest. simpl Js.get. cbn [bind].
  rewrite Hm. cbn [Js.iterate bind Js.opt_get].
  rewrite (for_of_map_message _ _ Hall). simpl.
  destruct (Js.to_boolean (Js.lookup (js "max_tokens") props));
    destruct (Js.to_boolean (Js.lookup (js "temperature") props)); reflexivity.
Qed.

(** C1 -- On every ChatRequest the mapper succeeds and produces as many
    [contents] entries as there are messages; the entry at each position
    comes from the message at that position alone: its [parts] is the
    single text entry holding the message's content, its role is "model"
    when the message's role is "assistant" and "user" for any other role. *)
Theorem map_request_maps_each_message (req : JsValue) (msgs : list JsValue) :
  messages_of req = Some msgs ->
  exists g,
    openaiToGeminiRequest req = Ok g
    /\ length (contents g) = length msgs
    /\ forall n m,
        nth_error msgs n = Some m ->
        exists c,
          nth_error (contents g) n = Some c
          /\ parts c = [ {| text := Js.opt_get m (js "content") |} ]
          /\ (Js.opt_get m (js "role") = JStr (js "assistant") ->
              role c = js "model")
          /\ (Js.opt_get m (js "role") <> JStr (js "assistant") ->
              role c = js "user").
Proof.
  intros H. eexists. split; [apply (openaiToGeminiRequest_eq _ H)|].
  simpl. split; [apply length_map|].
  intros n m Hn. exists (content_of m).
  split; [apply map_nth_error; assumption|].
  split; [reflexivity|].
  unfold content_of; simpl.
  destruct (Js.is_string (js "assistant") (Js.opt_get m (js "role"))) eqn:E.
  - split; [reflexivity|]. intros Hne. apply is_string_eq in E. contradiction.
  - split; [|reflexivity]. intros Heq. apply is_string_eq in Heq. congruence.
Qed.

(** C2 -- On every ChatRequest the mapper succeeds, and
    [generationConfig.maxOutputTokens] is left out when [max_tokens] is
    falsy -- absent and zero are -- and is [max_tokens] itself when it is
    truthy; [temperature] follows the same rule. *)
Theorem map_request_copies_truthy_limits (req : JsValue) (msgs : list JsValue) :
  messages_of req = Some msgs ->
  exists g,
    openaiToGeminiRequest req = Ok g
    /\ (forall max_tokens,
          Js.opt_get req (js "max_tokens") = max_tokens ->
          (Js.to_boolean max_tokens = false ->
           maxOutputTokens (generationConfig g) = None)
          /\ (max_tokens = JUndefined \/ max_tokens = JNum (num_of_Z 0) ->
              maxOutputTokens (generationConfig g) = None)
          /\ (Js.to_boolean max_tokens = true ->
              maxOutputTokens (generationConfig g) = Some max_tokens))
    /\ (forall temp,
          Js.opt_get req (js "temperature") = temp ->
          (Js.to_boolean temp = false ->
           temperature (generationConfig g) = None)
          /\ (temp = JUndefined \/ temp = JNum (num_of_Z 0) ->
              temperature (generationConfig g) = None)
          /\ (Js.to_boolean temp = true ->
              temperature (generationConfig g) = Some temp)).
Proof.
  intros H. eexists. split; [apply (openaiToGeminiRequest_eq _ H)|].
  simpl. split; intros v <-.
  - split; [intros ->; reflexivity|].
    split; [intros [-> | ->]; reflexivity | intros ->; reflexivity].
  - split; [intros ->; reflexivity|].
    split; [intros [-> | ->]; reflexivity | intros ->; reflexivity].
Qed.

End RequestMapper.

(** A request with three messages, [max_tokens] zero and a temperature. *)
Lemma map_request_sample_messages :
  exists g,
    openaiToGeminiRequest sample_request = Ok g
    /\ map role (contents g) = [js "user"; js "user"; js "model"]
    /\ map parts (contents g) =
         [ [ {| text := JStr (js "Be brief.") |} ];
           [ {| text := JStr (js "Hello") |} ];
           [ {| text := JStr (js "Hi there") |} ] ].
Proof.
  destruct (@map_request_maps_each_message sample_request
              [ JObj [(js "role", JStr (js "system"));
                      (js "content", JStr (js "Be brief."))];
                JObj [(js "role", JStr (js "user"));
                      (js "content", JStr (js "Hello"))];
                JObj [(js "role", JStr (js "assistant"));
                      (js "content", JStr (js "Hi there"))] ])
    as (g & Hg & _ & _).
  - reflexivity.
  - exists g. split; [exact Hg|].
    vm_compute in Hg. injection Hg as <-. split; reflexivity.
Defined.

Lemma map_request_sample_limits :
  exists g,
    openaiToGeminiRequest sample_request = Ok g
    /\ maxOutputTokens (generationConfig g) = None
    /\ temperature (generationConfig g)
       = Some (JNum {| num_neg := false; num_mant := 7; num_exp := -1 |}).
Proof.
  destruct (@map_request_copies_truthy_limits sample_request
              [ JObj [(js "role", JStr (js "system"));
                      (js "content", JStr (js "Be brief."))];
                JObj [(js "role", JStr (js "user"));
                      (js "content", JStr (js "Hello"))];
                JObj [(js "role", JStr (js "assistant"));
                      (js "content", JStr (js "Hi there"))] ])
    as (g & Hg & Hmax & Htemp).
  - reflexivity.
  - exists g. split; [exact Hg|]. split.
    + apply (Hmax (JNum (num_of_Z 0))); [reflexivity | right; reflexivity].
    + apply (Htemp (JNum {| num_neg := false; num_mant := 7; num_exp := -1 |}));
        reflexivity.
Defined.

(** ** The single-shot response translator *)

Section ResponseTranslator.

Lemma trimStart_blank (s : jstring) : blank s = true -> trimStart s = [].
Proof.
  induction s as [|c s IH]; simpl; [reflexivity|].
  destruct (is_whitespace c); simpl; [assumption | discriminate].
Qed.

Lemma trimStart_nil_blank (s : jstring) : trimStart s = [] -> blank s = true.
Proof.
  induction s as [|c s IH]; simpl; [reflexivity|].
  destruct (is_whitespace c); simpl; [assumption | discriminate].
Qed.

Lemma blank_trimStart (s : jstring) : blank (trimStart s) = true -> blank s = true.
Proof.
  induction s as [|c s IH]; simpl; [reflexivity|].
  destruct (is_whitespace c) eqn:E; simpl; [assumption|].
  rewrite E. discriminate.
Qed.

Lemma blank_rev (s : jstring) : blank (rev s) = blank s.
Proof.
  unfold blank. induction s as [|c s IH]; simpl; [reflexivity|].
  rewrite forallb_app, IH. simpl. rewrite andb_true_r. apply andb_comm.
Qed.

(** [trim] leaves nothing exactly of the strings that are empty or made of
    white space only. *)
Lemma trim_nil_iff (s : jstring) : JsString.trim s = [] <-> blank s = true.
Proof.
  unfold JsString.trim, trimEnd. split.
  - intros H.
    assert (H' : trimStart (rev (trimStart s)) = []).
    { destruct (trimStart (rev (trimStart s))) as [|c l]; [reflexivity|].
      simpl in H. apply app_eq_nil in H. destruct H; discriminate. }
    apply trimStart_nil_blank in H'. rewrite blank_rev in H'.
    apply blank_trimStart, H'.
  - intros H. rewrite (trimStart_blank _ H). reflexivity.
Qed.

Lemma completion_ok (env : Env) (geminiResponse model content : JsValue) :
  Js.nullish geminiResponse = false ->
  exists r,
    completion env geminiResponse model content = Ok r
    /\ Completion.first_content r = Some content.
Proof.
  intros H. unfold completion, usage_count.
  rewrite (get_opt_get _ _ H). simpl. eexists; split; reflexivity.
Qed.

Lemma candidate_text_not_nullish (v c : JsValue) :
  candidate_text v = Ok c -> Js.nullish v = false.
Proof. destruct v; simpl; try discriminate; reflexivity. Qed.

(** What the fallback variant answers when the extracted text is a
    string. *)
Lemma fallback_response_content (env : Env) (geminiResponse model : JsValue)
  (s : jstring) :
  candidate_text geminiResponse = Ok (JStr s) ->
  exists r,
    Fallback.geminiToOpenAIResponse env geminiResponse model = Ok r
    /\ Completion.first_content r
       = Some (JStr (if blank s then placeholder else s)).
Proof.
  intros H. unfold Fallback.geminiToOpenAIResponse. rewrite H. simpl.
  pose proof (trim_nil_iff s) as Ht.
  destruct (JsString.trim s) as [|c l] eqn:E.
  - rewrite (proj1 Ht eq_refl). simpl.
    apply completion_ok, (candidate_text_not_nullish _ H).
  - destruct (blank s).
    + destruct Ht as [_ Ht]. discriminate (Ht eq_refl).
    + simpl. apply completion_ok, (candidate_text_not_nullish _ H).
Qed.

Lemma baseline_response_content (env : Env) (geminiResponse model content : JsValue) :
  candidate_text geminiResponse = Ok content ->
  exists r,
    Baseline.geminiToOpenAIResponse env geminiResponse model = Ok r
    /\ Completion.first_content r = Some content.
Proof.
  intros H. unfold Baseline.geminiToOpenAIResponse. rewrite H. simpl.
  apply completion_ok, (candidate_text_not_nullish _ H).
Qed.

(** C3 -- A backend response whose extracted text (the empty string when a
    link of the path is missing) is empty or white space only: the fallback
    variant answers with the placeholder as [choices[0].message.content],
    the variant without the policy with the extracted string as it is. *)
Theorem blank_text_placeholder_or_unchanged
  (env : Env) (geminiResponse model : JsValue) (s : jstring) :
  candidate_text geminiResponse = Ok (JStr s) ->
  blank s = true ->
  (exists r,
      Fallback.geminiToOpenAIResponse env geminiResponse model = Ok r
      /\ Completion.first_content r = Some (JStr placeholder))
  /\ (exists r,
         Baseline.geminiToOpenAIResponse env geminiResponse model = Ok r
         /\ Completion.first_content r = Some (JStr s)).
Proof.
  intros H Hb. split.
  - destruct (fallback_response_content env _ model H) as (r & Hr & Hc).
    rewrite Hb in Hc. exists r. auto.
  - apply baseline_response_content, H.
Qed.

(** C8 -- A backend response whose text is "hello": both variants answer
    with "hello" as [choices[0].message.content]. *)
Theorem hello_round_trip (env : Env) (geminiResponse model : JsValue) :
  candidate_text geminiResponse = Ok (JStr (js "hello")) ->
  (exists r,
      Fallback.geminiToOpenAIResponse env geminiResponse model = Ok r
      /\ Completion.first_content r = Some (JStr (js "hello")))
  /\ (exists r,
         Baseline.geminiToOpenAIResponse env geminiResponse model = Ok r
         /\ Completion.first_content r = Some (JStr (js "hello"))).
Proof.
  intros H. split.
  - apply (fallback_response_content env _ model H).
  - apply baseline_response_content, H.
Qed.

(** C10 -- In the fallback variant, every backend response whose text is a
    string or is missing -- the response may have no candidates at all --
    gets an answer, and its [choices[0].message.content] is a string with
    a character that is not white space: the backend's text if it has one,
    the placeholder otherwise. *)
Theorem fallback_content_never_blank
  (env : Env) (geminiResponse model : JsValue) (s : jstring) :
  candidate_text geminiResponse = Ok (JStr s) ->
  exists r content,
    Fallback.geminiToOpenAIResponse env geminiResponse model = Ok r
    /\ Completion.first_content r = Some (JStr content)
    /\ blank content = false
    /\ ((content = s /\ blank s = false) \/ content = placeholder).
Proof.
  intros H.
  destruct (fallback_response_content env _ model H) as (r & Hr & Hc).
  exists r. destruct (blank s) eqn:Hb.
  - exists placeholder. repeat split; auto.
  - exists s. repeat split; auto.
Qed.

End ResponseTranslator.

(** A response whose text is two spaces and a line feed. *)
Lemma blank_text_sample :
  (exists r,
      Fallback.geminiToOpenAIResponse sample_env
        (response_with_text [32; 32; 10]%N) sample_model = Ok r
      /\ Completion.first_content r = Some (JStr placeholder))
  /\ (exists r,
         Baseline.geminiToOpenAIResponse sample_env
           (response_with_text [32; 32; 10]%N) sample_model = Ok r
         /\ Completion.first_content r = Some (JStr [32; 32; 10]%N)).
Proof.
  apply (@blank_text_placeholder_or_unchanged sample_env
           (response_with_text [32; 32; 10]%N) sample_model [32; 32; 10]%N);
    reflexivity.
Defined.

Lemma hello_round_trip_sample :
  (exists r,
      Fallback.geminiToOpenAIResponse sample_env
        (response_with_text (js "hello")) sample_model = Ok r
      /\ Completion.first_content r = Some (JStr (js "hello")))
  /\ (exists r,
         Baseline.geminiToOpenAIResponse sample_env
           (response_with_text (js "hello")) sample_model = Ok r
         /\ Completion.first_content r = Some (JStr (js "hello"))).
Proof.
  apply (@hello_round_trip sample_env (response_with_text (js "hello"))
           sample_model).
  reflexivity.
Defined.

(** A response without candidates: the answer is the placeholder. *)
Lemma fallback_content_no_candidates :
  exists r content,
    Fallback.geminiToOpenAIResponse sample_env (JObj []) sample_model = Ok r
    /\ Completion.first_content r = Some (JStr content)
    /\ blank content = false
    /\ ((content = [] /\ blank [] = false) \/ content = placeholder).
Proof.
  apply (@fallback_content_never_blank sample_env (JObj []) sample_model []).
  reflexivity.
Defined.

(** ** The Vercel route *)

Section VercelRoute.

Import Vercel.

Variables (env : Env) (backend : AxiosPost -> AxiosOutcome).

(** Every backend call of the route is a [:generateContent] call without a
    stream response type. *)
Lemma chat_completions_calls (req : Request) :
  Forall (fun p => post_verb p = js ":generateContent"
                   /\ post_responseType p = None)
         (fst (chat_completions env backend req)).
Proof.
  unfold chat_completions.
  destruct (getApiKey req) as [k|]; [|constructor].
  destruct (negb (Js.to_boolean (JStr k))); [constructor|].
  destruct (Js.get (body req) (js "stream")) as [s|]; [|constructor].
  destruct (Js.to_boolean s); [constructor|].
  destruct (openaiToGeminiRequest (body req)) as [g|]; simpl; [|constructor].
  destruct (Js.get (body req) (js "model")) as [m|]; simpl; [|constructor].
  destruct (backend _).
  - destruct (Baseline.geminiToOpenAIResponse _ _ _);
      repeat constructor.
  - repeat constructor.
Qed.

End VercelRoute.

(** C9 as amended -- In the Vercel variant, a chat-completion request that
    carries a Bearer credential and whose [stream] flag is truthy is
    answered with status 400 and the error body, whatever else the body
    holds and without a backend call; a request without such a credential
    is answered with 401 whatever its [stream] flag; and no request makes
    the route call the streaming endpoint. *)
Theorem vercel_refuses_streaming
  (env : Env) (backend : Vercel.AxiosPost -> Vercel.AxiosOutcome)
  (req : Vercel.Request) :
  (forall key stream,
      Vercel.getApiKey req = Some key -> key <> [] ->
      Js.get (Vercel.body req) (js "stream") = Ok stream ->
      Js.to_boolean stream = true ->
      Vercel.chat_completions env backend req =
        ([], {| Vercel.status := 400;
                Vercel.payload :=
                  Vercel.ErrorPayload
                    (JStr (js "Streaming is not supported in this Vercel deployment."))
                    None |}))
  /\ (Vercel.getApiKey req = None \/ Vercel.getApiKey req = Some [] ->
      Vercel.chat_completions env backend req = ([], Vercel.unauthorized)
      /\ Vercel.status Vercel.unauthorized = 401%Z)
  /\ Forall (fun p => Vercel.post_verb p = js ":generateContent"
                      /\ Vercel.post_responseType p = None)
            (fst (Vercel.chat_completions env backend req)).
Proof.
  split; [|split].
  - intros key stream Hkey Hne Hstream Htruthy.
    unfold Vercel.chat_completions. rewrite Hkey.
    destruct key as [|c key]; [contradiction|]. simpl negb. cbv iota.
    rewrite Hstream, Htruthy. reflexivity.
  - intros [H | H]; unfold Vercel.chat_completions; rewrite H;
      split; reflexivity.
  - apply chat_completions_calls.
Qed.

(** A streaming request with a credential and nothing to translate: 400,
    no backend call. *)
Lemma vercel_refuses_streaming_sample :
  Vercel.chat_completions sample_env (fun _ => Vercel.Rejects None)
    {| Vercel.authorization := Some (js "Bearer sk-test");
       Vercel.body := JObj [(js "stream", JBool true)] |} =
    ([], {| Vercel.status := 400;
            Vercel.payload :=
              Vercel.ErrorPayload
                (JStr (js "Streaming is not supported in this Vercel deployment."))
                None |}).
Proof.
  apply (proj1 (vercel_refuses_streaming sample_env (fun _ => Vercel.Rejects None)
                  {| Vercel.authorization := Some (js "Bearer sk-test");
                     Vercel.body := JObj [(js "stream", JBool true)] |})
           (js "sk-test") (JBool true)).
  - reflexivity.
  - discriminate.
  - reflexivity.
  - reflexivity.
Defined.

(** C9 as stated fails: a request whose [stream] flag is [true] and that
    carries no [authorization] header is answered with 401, not 400. *)
Lemma vercel_streaming_without_credential :
  Js.get (Vercel.body {| Vercel.authorization := None;
                         Vercel.body := JObj [(js "stream", JBool true)] |})
    (js "stream") = Ok (JBool true)
  /\ Js.to_boolean (JBool true) = true
  /\ Vercel.status
       (snd (Vercel.chat_completions sample_env (fun _ => Vercel.Rejects None)
               {| Vercel.authorization := None;
                  Vercel.body := JObj [(js "stream", JBool true)] |})) = 401%Z
  /\ Vercel.status
       (snd (Vercel.chat_completions sample_env (fun _ => Vercel.Rejects None)
               {| Vercel.authorization := None;
                  Vercel.body := JObj [(js "stream", JBool true)] |})) <> 400%Z.
Proof.
  repeat split; try reflexivity. vm_compute. discriminate.
Qed.

(* ================================================================== *)
(** * Further properties of the code *)

(** ** More on the stream re-framer of the fallback variant *)

Section ReframerMore.

Import Fallback.

Lemma indexOf_nil_delimiter : indexOf delimiter [] = None.
Proof. reflexivity. Qed.

(** The loop on a buffer made of terminated frames and a tail without blank
    line: the contents of the frames are written in order, the tail stays
    in the buffer. *)
Lemma drained_frames (frames : list jstring) (tail : jstring) (st : Stream) :
  Forall terminated frames ->
  indexOf delimiter tail = None ->
  drained (set_buffer (stream_text frames tail) st) =
    {| buffer := tail;
       id := id st;
       created := created st;
       model := model st;
       hasSentContent :=
         hasSentContent st
         || match frame_contents frames with [] => false | _ => true end;
       res :=
         res st
         ++ map (fun c => Write (ChunkEvent (content_chunk st c)))
              (frame_contents frames) |}.
Proof.
  intros Hframes Htail. revert st.
  induction Hframes as [|f frames Hf _ IH]; intros st.
  - unfold stream_text. simpl. rewrite drained_unfold, set_buffer_buffer, Htail.
    rewrite orb_false_r, app_nil_r. reflexivity.
  - unfold stream_text. simpl concat. rewrite <- app_assoc.
    fold (stream_text frames tail).
    rewrite drained_unfold, set_buffer_buffer.
    rewrite (indexOf_app _ _ _ Hf).
    rewrite (turn_first_frame _ f (stream_text frames tail));
      [|apply set_buffer_buffer].
    cbn zeta. rewrite set_buffer_twice.
    unfold frame_contents. simpl flat_map.
    fold (frame_contents frames).
    destruct (frame_content (strip_prefix (js "data: ") f)) as [c|].
    + change (call (Write (ChunkEvent (content_chunk (set_buffer (stream_text frames tail) st) c)))
                (set_hasSentContent (set_buffer (stream_text frames tail) st)))
        with (set_buffer (stream_text frames tail)
                (call (Write (ChunkEvent (content_chunk st c)))
                   (set_hasSentContent st))).
      rewrite IH. simpl. rewrite <- app_assoc. rewrite orb_true_r.
      reflexivity.
    + rewrite IH. reflexivity.
Qed.


Lemma startsWith_split (p s : jstring) :
  startsWith p s = true -> s = p ++ skipn (length p) s.
Proof.
  revert s; induction p as [|x p IH]; intros [|y s]; simpl; try discriminate;
    try reflexivity.
  rewrite andb_true_iff, N.eqb_eq. intros [-> H]. f_equal. apply IH, H.
Qed.

Lemma startsWith_app_inv (p s t : jstring) :
  startsWith p (s ++ t) = true -> length p <= length s -> startsWith p s = true.
Proof.
  revert s; induction p as [|x p IH]; intros [|y s]; simpl; auto; try lia.
  rewrite !andb_true_iff. intros [? ?] ?. split; [assumption|].
  apply IH; [assumption | lia].
Qed.

(** The text around the first occurrence. *)
Lemma indexOf_split (p s : jstring) (k : nat) :
  indexOf p s = Some k -> s = firstn k s ++ p ++ skipn (k + length p) s.
Proof.
  revert k; induction s as [|c s IH]; intros k; simpl indexOf.
  - destruct (startsWith p []) eqn:E; [|discriminate].
    intros [= <-]. apply startsWith_split in E. exact E.
  - destruct (startsWith p (c :: s)) eqn:E.
    + intros [= <-]. apply startsWith_split in E. exact E.
    + destruct (indexOf p s) as [j|]; simpl; [|discriminate].
      intros [= <-]. simpl. f_equal. apply IH. reflexivity.
Qed.

(** An occurrence that is the first one of a text is the first one of
    every prefix that holds it. *)
Lemma indexOf_prefix (p s t : jstring) (k : nat) :
  indexOf p (s ++ t) = Some k -> k + length p <= length s ->
  indexOf p s = Some k.
Proof.
  revert k; induction s as [|c s IH]; intros k.
  - simpl app. intros _ Hk. simpl in Hk.
    destruct p; [|simpl in Hk; lia]. assert (k = 0) by lia. subst. reflexivity.
  - simpl app. simpl indexOf.
    destruct (startsWith p (c :: s ++ t)) eqn:E.
    + intros [= <-] Hk.
      rewrite (startsWith_app_inv p (c :: s) t E); [reflexivity | lia].
    + destruct (indexOf p (s ++ t)) as [j|] eqn:Ej; simpl; [|discriminate].
      intros [= <-] Hk. simpl in Hk.
      rewrite (IH j eq_refl) by lia.
      destruct (startsWith p (c :: s)) eqn:E'; [|reflexivity].
      apply (startsWith_app _ _ t) in E'. simpl in E'. congruence.
Qed.

(** Every text is a sequence of terminated frames followed by a tail
    without blank line. *)
Lemma stream_text_exists (text : jstring) :
  exists frames tail,
    text = stream_text frames tail
    /\ Forall terminated frames
    /\ indexOf delimiter tail = None.
Proof.
  remember (length text) as n eqn:Hn. revert text Hn.
  induction n as [n IH] using lt_wf_ind. intros text Hn.
  destruct (indexOf delimiter text) as [k|] eqn:E.
  - pose proof (indexOf_bound _ _ E) as Hk. rewrite delimiter_length in Hk.
    pose proof (indexOf_split _ _ E) as Hsplit. rewrite delimiter_length in Hsplit.
    destruct (IH (length (skipn (k + 2) text))) with (text := skipn (k + 2) text)
      as (frames & tail & Hrest & Hframes & Htail).
    { rewrite length_skipn. lia. }
    { reflexivity. }
    exists (firstn k text :: frames), tail. split; [|split].
    + unfold stream_text in *. simpl. rewrite <- !app_assoc, <- Hrest.
      exact Hsplit.
    + constructor; [|assumption]. unfold terminated.
      assert (Hlen : length (firstn k text) = k) by (rewrite length_firstn; lia).
      rewrite Hlen.
      apply (indexOf_prefix delimiter (firstn k text ++ delimiter)
               (skipn (k + 2) text)).
      * rewrite <- app_assoc, <- Hsplit. exact E.
      * rewrite length_app, Hlen, delimiter_length. lia.
    + assumption.
  - exists [], text. repeat split; [constructor | assumption].
Qed.

Lemma frame_contents_truthy (frames : list jstring) :
  Forall (fun c => Js.to_boolean c = true) (frame_contents frames).
Proof.
  unfold frame_contents. induction frames as [|f frames IH]; simpl; [constructor|].
  apply Forall_app; split; [|assumption].
  unfold frame_content.
  destruct (bind _ _) as [c|]; [|constructor].
  destruct (Js.to_boolean c) eqn:E; constructor; [assumption | constructor].
Qed.

Lemma start_content_chunk (env : Env) (model c : JsValue) :
  content_chunk (transformGeminiStreamToOpenAIStream env [] model) c
  = content_chunk_of env model c.
Proof. reflexivity. Qed.

(** The state after the data of a stream, in terms of its frames. *)
Lemma run_data_frames (env : Env) (model : JsValue)
  (frames chunks : list jstring) (tail : jstring) :
  Forall terminated frames ->
  indexOf delimiter tail = None ->
  concat chunks = stream_text frames tail ->
  run (transformGeminiStreamToOpenAIStream env [] model) (map OnData chunks) =
    {| buffer := tail;
       id := chatcmpl_id env;
       created := unix_seconds env;
       model := model;
       hasSentContent :=
         match frame_contents frames with [] => false | _ => true end;
       res :=
         map (fun c => Write (ChunkEvent (content_chunk_of env model c)))
           (frame_contents frames) |}.
Proof.
  intros Hframes Htail Hchunks.
  rewrite run_data by reflexivity.
  rewrite on_data_drained. simpl buffer. simpl app. rewrite Hchunks.
  rewrite (@drained_frames frames tail _ Hframes Htail). reflexivity.
Qed.


(** X2 -- Two ways of cutting the same text into chunks lead to the same
    state, hence to the same frames written, whatever happens next. *)
Theorem chunking_does_not_matter (env : Env) (model : JsValue)
  (chunks1 chunks2 : list jstring) (evs : list StreamEvent) :
  concat chunks1 = concat chunks2 ->
  run (transformGeminiStreamToOpenAIStream env [] model) (map OnData chunks1 ++ evs)
  = run (transformGeminiStreamToOpenAIStream env [] model) (map OnData chunks2 ++ evs).
Proof.
  intros H. rewrite !run_app. rewrite !run_data by reflexivity.
  rewrite H. reflexivity.
Qed.

(** X3 -- Whatever has arrived, the buffer holds no blank line: a frame that
    is complete has been taken out of it. *)
Theorem buffer_holds_no_complete_frame (env : Env) (model : JsValue)
  (evs : list StreamEvent) :
  indexOf delimiter
    (buffer (run (transformGeminiStreamToOpenAIStream env [] model) evs)) = None.
Proof.
  assert (H : forall st, indexOf delimiter (buffer st) = None ->
                         indexOf delimiter (buffer (run st evs)) = None).
  { induction evs as [|ev evs IH]; intros st Hst; simpl; [assumption|].
    apply IH. destruct ev; simpl.
    - rewrite on_data_drained. apply drained_no_delimiter.
    - unfold on_end. destruct (negb (hasSentContent st)); exact Hst.
    - unfold on_error. destruct (negb _); exact Hst. }
  apply H. reflexivity.
Qed.

Lemma content_call_chunk_of (env : Env) (model : JsValue) (cs : list JsValue) :
  Forall (fun c => Js.to_boolean c = true) cs ->
  Forall content_call
    (map (fun c => Write (ChunkEvent (content_chunk_of env model c))) cs).
Proof.
  induction 1 as [|c cs Hc _ IH]; simpl; constructor; [|assumption].
  simpl. exists c. split; [reflexivity | assumption].
Qed.

Lemma content_calls_not_ended (l : list ResCall) :
  Forall content_call l -> writableEnded l = false.
Proof.
  induction 1 as [|c l Hc _ IH]; [reflexivity|].
  destruct c as [e|]; [|contradiction]. simpl. assumption.
Qed.

(** The log of a stream that ends. *)
Lemma ended_stream_log (env : Env) (model : JsValue) (chunks : list jstring) :
  exists contents,
    res (run (transformGeminiStreamToOpenAIStream env [] model)
           (map OnData chunks ++ [OnEnd]))
    = contents ++ [Write (ChunkEvent (terminal_chunk env model)); Write Done; End]
    /\ contents <> []
    /\ Forall content_call contents.
Proof.
  destruct (stream_text_exists (concat chunks))
    as (frames & tail & Htext & Hframes & Htail).
  rewrite run_app, (@run_data_frames env model frames chunks tail Hframes Htail Htext).
  pose proof (frame_contents_truthy frames) as Htruthy.
  simpl run. unfold on_end. simpl.
  destruct (frame_contents frames) as [|c cs] eqn:E; simpl.
  - exists [Write (ChunkEvent (fallback_chunk env model))].
    split; [reflexivity|]. split; [discriminate|].
    constructor; [|constructor]. simpl. eexists; split; reflexivity.
  - exists (map (fun c => Write (ChunkEvent (content_chunk_of env model c)))
              (c :: cs)).
    split; [|split].
    + simpl. rewrite <- !app_assoc. reflexivity.
    + discriminate.
    + apply content_call_chunk_of, Htruthy.
Qed.

(** X4 -- A stream that ends, in the fallback variant: the frames written
    are one content chunk at least -- each with a truthy content and a null
    [finish_reason] -- then the terminal chunk, then [DONE]; the close
    follows. *)
Theorem ended_stream_shape (env : Env) (model : JsValue) (chunks : list jstring) :
  exists contents,
    res (run (transformGeminiStreamToOpenAIStream env [] model)
           (map OnData chunks ++ [OnEnd]))
    = contents ++ [Write (ChunkEvent (terminal_chunk env model)); Write Done; End]
    /\ contents <> []
    /\ Forall content_call contents.
Proof. exact (ended_stream_log env model chunks). Qed.

(** X5 -- A stream that fails: the connection is closed behind the content
    chunks written so far, without terminal chunk and without [DONE]; and
    an error behind the end of the stream changes nothing. *)
Theorem errored_stream_has_no_sentinel (env : Env) (model : JsValue)
  (chunks : list jstring) (evs : list StreamEvent) :
  (exists contents,
      res (run (transformGeminiStreamToOpenAIStream env [] model)
             (map OnData chunks ++ [OnError])) = contents ++ [End]
      /\ contents
         = res (run (transformGeminiStreamToOpenAIStream env [] model)
                  (map OnData chunks))
      /\ Forall content_call contents)
  /\ run (transformGeminiStreamToOpenAIStream env [] model)
       (evs ++ [OnEnd; OnError])
     = run (transformGeminiStreamToOpenAIStream env [] model) (evs ++ [OnEnd]).
Proof.
  split.
  - destruct (stream_text_exists (concat chunks))
      as (frames & tail & Htext & Hframes & Htail).
    rewrite run_app, (@run_data_frames env model frames chunks tail Hframes Htail Htext).
    pose proof (content_call_chunk_of env model (frame_contents_truthy frames))
      as Hcalls.
    eexists; split; [|split; [reflexivity | exact Hcalls]].
    simpl run. unfold on_error. simpl res.
    rewrite (content_calls_not_ended Hcalls). reflexivity.
  - rewrite !run_app. simpl run.
    generalize (run (transformGeminiStreamToOpenAIStream env [] model) evs).
    intros st. unfold on_error.
    assert (H : writableEnded (res (on_end st)) = true).
    { destruct (on_end_last st) as [before ->]. unfold writableEnded.
      rewrite existsb_app. simpl. apply orb_true_r. }
    rewrite H. reflexivity.
Qed.

End ReframerMore.


Lemma chunking_does_not_matter_sample :
  Fallback.run
    (Fallback.transformGeminiStreamToOpenAIStream sample_env [] sample_model)
    (map OnData [hi_frame ++ lf; lf] ++ [OnEnd])
  = Fallback.run
      (Fallback.transformGeminiStreamToOpenAIStream sample_env [] sample_model)
      (map OnData [firstn 9 hi_frame; skipn 9 hi_frame; lf ++ lf] ++ [OnEnd]).
Proof.
  apply (@chunking_does_not_matter sample_env sample_model
           [hi_frame ++ lf; lf] [firstn 9 hi_frame; skipn 9 hi_frame; lf ++ lf]
           [OnEnd]).
  vm_compute. reflexivity.
Defined.

(** ** The stream re-framer of the baseline variant *)

Section BaselineReframer.

Import BaselineStream.

(** The two variants take the same turns: the fallback variant only keeps
    a flag more. *)
Lemma sim_turn (flag : bool) (st : Stream) (k : nat) :
  exists flag',
    Fallback.turn (with_flag flag st) k = with_flag flag' (turn st k).
Proof.
  unfold Fallback.turn, turn, Fallback.try_frame, try_frame. simpl.
  destruct (JSON.parse _) as [v|]; simpl; [|eexists; reflexivity].
  destruct (candidate_text v) as [c|]; simpl; [|eexists; reflexivity].
  destruct (Js.to_boolean c); eexists; reflexivity.
Qed.

Lemma sim_drain (n : nat) (flag : bool) (st : Stream) :
  exists flag',
    Fallback.drain n (with_flag flag st) = with_flag flag' (drain n st).
Proof.
  revert flag st. induction n as [|n IH]; intros flag st; simpl.
  - eexists; reflexivity.
  - destruct (indexOf Fallback.delimiter (buffer st)) as [k|];
      [|eexists; reflexivity].
    destruct (sim_turn flag st k) as [flag1 ->]. apply IH.
Qed.

Lemma sim_run_data (chunks : list jstring) (flag : bool) (st : Stream) :
  exists flag',
    Fallback.run (with_flag flag st) (map OnData chunks)
    = with_flag flag' (run st (map OnData chunks)).
Proof.
  revert flag st. induction chunks as [|c chunks IH]; intros flag st; simpl.
  - eexists; reflexivity.
  - unfold Fallback.on_data, on_data.
    change (Fallback.set_buffer (Fallback.buffer (with_flag flag st) ++ c)
              (with_flag flag st))
      with (with_flag flag (set_buffer (buffer st ++ c) st)).
    change (Fallback.buffer (with_flag flag (set_buffer (buffer st ++ c) st)))
      with (buffer (set_buffer (buffer st ++ c) st)).
    destruct (sim_drain (length (buffer (set_buffer (buffer st ++ c) st))) flag
                (set_buffer (buffer st ++ c) st)) as [flag1 ->].
    apply IH.
Qed.

(** X6 -- The baseline variant writes the same content chunks as the
    fallback variant while the stream lasts; when the stream ends it writes
    the terminal chunk and [DONE] and closes, where the fallback variant
    writes its placeholder chunk first if and only if no content chunk was
    written. *)
Theorem baseline_stream_differs_by_placeholder
  (env : Env) (model : JsValue) (chunks : list jstring) :
  res (run (transformGeminiStreamToOpenAIStream env [] model) (map OnData chunks))
  = Fallback.res
      (Fallback.run (Fallback.transformGeminiStreamToOpenAIStream env [] model)
         (map OnData chunks))
  /\ res (run (transformGeminiStreamToOpenAIStream env [] model)
            (map OnData chunks ++ [OnEnd]))
     = Fallback.res
         (Fallback.run (Fallback.transformGeminiStreamToOpenAIStream env [] model)
            (map OnData chunks))
       ++ [Write (ChunkEvent (terminal_chunk env model)); Write Done; End]
  /\ Fallback.res
       (Fallback.run (Fallback.transformGeminiStreamToOpenAIStream env [] model)
          (map OnData chunks ++ [OnEnd]))
     = Fallback.res
         (Fallback.run (Fallback.transformGeminiStreamToOpenAIStream env [] model)
            (map OnData chunks))
       ++ match
            Fallback.res
              (Fallback.run
                 (Fallback.transformGeminiStreamToOpenAIStream env [] model)
                 (map OnData chunks))
          with
          | [] => [Write (ChunkEvent (fallback_chunk env model))]
          | _ :: _ => []
          end
       ++ [Write (ChunkEvent (terminal_chunk env model)); Write Done; End].
Proof.
  destruct (sim_run_data chunks false
              (transformGeminiStreamToOpenAIStream env [] model)) as [flag Hsim].
  change (with_flag false (transformGeminiStreamToOpenAIStream env [] model))
    with (Fallback.transformGeminiStreamToOpenAIStream env [] model) in Hsim.
  assert (Hres : res (run (transformGeminiStreamToOpenAIStream env [] model)
                        (map OnData chunks))
                 = Fallback.res
                     (Fallback.run
                        (Fallback.transformGeminiStreamToOpenAIStream env [] model)
                        (map OnData chunks))).
  { rewrite Hsim. reflexivity. }
  split; [exact Hres|]. split.
  - rewrite <- Hres.
    pose proof (inv_run (map OnData chunks) (inv_start env model)) as Hinv.
    rewrite Hsim in Hinv. destruct Hinv as [Hi Ht Hm _ _]. simpl in Hi, Ht, Hm.
    unfold run at 1. rewrite fold_left_app.
    fold (run (transformGeminiStreamToOpenAIStream env [] model) (map OnData chunks)).
    simpl. unfold chunk. rewrite Hi, Ht, Hm.
    rewrite <- !app_assoc. reflexivity.
  - destruct (stream_text_exists (concat chunks))
      as (frames & tail & Htext & Hframes & Htail).
    rewrite run_app.
    rewrite (@run_data_frames env model frames chunks tail Hframes Htail Htext).
    simpl. unfold Fallback.on_end. simpl.
    destruct (frame_contents frames) as [|c cs]; simpl.
    + reflexivity.
    + rewrite <- !app_assoc. reflexivity.
Qed.

End BaselineReframer.

(** ** More on the request mapper *)

Section RequestMapperMore.

Lemma get_cases (v : JsValue) (k : jstring) :
  Js.get v k = if Js.nullish v then Throw TypeError else Ok (Js.opt_get v k).
Proof. destruct v; reflexivity. Qed.

Lemma for_of_preserves (items : list JsValue) (g g' : GeminiRequest) :
  for_of map_message items g = Ok g' ->
  generationConfig g' = generationConfig g
  /\ safetySettings g' = safetySettings g.
Proof.
  revert g. induction items as [|m items IH]; intros g; simpl.
  - intros [= <-]. auto.
  - unfold map_message at 1.
    destruct (Js.get m (js "role")) as [r|]; simpl; [|discriminate].
    destruct (Js.get m (js "content")) as [c|]; simpl; [|discriminate].
    intros H. apply IH in H. simpl in H. exact H.
Qed.

(** The loop fails on the first entry that is [null] or [undefined]. *)
Lemma for_of_map_message_throws (items : list JsValue) (g : GeminiRequest) :
  existsb Js.nullish items = true ->
  for_of map_message items g = Throw TypeError.
Proof.
  revert g. induction items as [|m items IH]; intros g; simpl; [discriminate|].
  destruct (Js.nullish m) eqn:E; simpl.
  - intros _. unfold map_message. rewrite get_cases, E. reflexivity.
  - intros H. unfold map_message at 1. rewrite !get_cases, E. simpl.
    apply IH, H.
Qed.

Lemma forallb_not_nullish (items : list JsValue) :
  forallb (fun m => negb (Js.nullish m)) items = negb (existsb Js.nullish items).
Proof.
  induction items as [|m items IH]; simpl; [reflexivity|].
  rewrite IH, negb_orb. reflexivity.
Qed.

(** How the mapper ends, on any body. *)
Lemma openaiToGeminiRequest_outcome (req : JsValue) :
  match openaiToGeminiRequest req with
  | Ok _ =>
      Js.nullish req = false
      /\ exists items,
          Js.iterate (Js.opt_get req (js "messages")) = Ok items
          /\ existsb Js.nullish items = false
  | Throw e =>
      e = TypeError
      /\ (Js.nullish req = true
          \/ Js.iterate (Js.opt_get req (js "messages")) = Throw TypeError
          \/ exists items,
              Js.iterate (Js.opt_get req (js "messages")) = Ok items
              /\ existsb Js.nullish items = true)
  end.
Proof.
  unfold openaiToGeminiRequest. rewrite !get_cases.
  destruct (Js.nullish req) eqn:En; simpl; [auto|].
  destruct (Js.iterate (Js.opt_get req (js "messages"))) as [items|e] eqn:Ei;
    simpl.
  - destruct (existsb Js.nullish items) eqn:Ex.
    + rewrite (for_of_map_message_throws _ _ Ex). split; [reflexivity|].
      right; right. exists items. auto.
    + rewrite for_of_map_message
        by (rewrite forallb_not_nullish, Ex; reflexivity).
      split; [reflexivity|]. exists items. auto.
  - assert (e = TypeError) as ->.
    { destruct (Js.opt_get req (js "messages")); simpl in Ei; congruence. }
    auto.
Qed.

(** X7 -- The mapper fails, with a [TypeError], exactly when the body is
    [null] or [undefined], or its [messages] is neither an array nor a
    string, or one of the entries of [messages] is [null] or [undefined];
    otherwise it returns a request. *)
Theorem map_request_fails_exactly (req : JsValue) :
  match openaiToGeminiRequest req with
  | Ok _ =>
      Js.nullish req = false
      /\ exists items,
          Js.iterate (Js.opt_get req (js "messages")) = Ok items
          /\ existsb Js.nullish items = false
  | Throw e =>
      e = TypeError
      /\ (Js.nullish req = true
          \/ Js.iterate (Js.opt_get req (js "messages")) = Throw TypeError
          \/ exists items,
              Js.iterate (Js.opt_get req (js "messages")) = Ok items
              /\ existsb Js.nullish items = true)
  end.
Proof. exact (openaiToGeminiRequest_outcome req). Qed.

(** X8 -- The mapper reads [max_tokens], [temperature] and [messages] and
    nothing else: two bodies that agree on them are mapped alike. *)
Theorem map_request_reads_three_fields (req1 req2 : JsValue) :
  Js.nullish req1 = Js.nullish req2 ->
  Js.opt_get req1 (js "max_tokens") = Js.opt_get req2 (js "max_tokens") ->
  Js.opt_get req1 (js "temperature") = Js.opt_get req2 (js "temperature") ->
  Js.opt_get req1 (js "messages") = Js.opt_get req2 (js "messages") ->
  openaiToGeminiRequest req1 = openaiToGeminiRequest req2.
Proof.
  intros Hn Hm Ht Hs. unfold openaiToGeminiRequest.
  rewrite !get_cases, Hn, Hm, Ht, Hs. reflexivity.
Qed.

(** X9 -- Whatever the request, the request sent to the backend carries the
    same four safety settings, each with the threshold [BLOCK_NONE]. *)
Theorem map_request_safety_is_constant (req : JsValue) (g : GeminiRequest) :
  openaiToGeminiRequest req = Ok g ->
  map category (safetySettings g)
  = [ js "HARM_CATEGORY_HARASSMENT"; js "HARM_CATEGORY_HATE_SPEECH";
      js "HARM_CATEGORY_SEXUALLY_EXPLICIT"; js "HARM_CATEGORY_DANGEROUS_CONTENT" ]
  /\ Forall (fun s => threshold s = js "BLOCK_NONE") (safetySettings g).
Proof.
  unfold openaiToGeminiRequest.
  destruct (Js.get req (js "max_tokens")) as [mt|]; simpl; [|discriminate].
  destruct (Js.get req (js "temperature")) as [tp|]; simpl; [|discriminate].
  destruct (Js.get req (js "messages")) as [ms|]; simpl; [|discriminate].
  destruct (Js.iterate ms) as [items|]; simpl; [|discriminate].
  intros H. apply for_of_preserves in H. destruct H as [_ ->]. simpl.
  split; [reflexivity | repeat constructor].
Qed.

(** X10 -- A [messages] that is a string is not refused: each of its code
    points gives an entry with the role "user" and no text. *)
Theorem map_request_string_messages (props : list (jstring * JsValue)) (s : jstring) :
  Js.lookup (js "messages") props = JStr s ->
  exists g,
    openaiToGeminiRequest (JObj props) = Ok g
    /\ contents g
       = map (fun _ => {| role := js "user"; parts := [ {| text := JUndefined |} ] |})
           (code_points s).
Proof.
  intros H. unfold openaiToGeminiRequest. simpl Js.get. cbn [bind].
  rewrite H. cbn [Js.iterate bind].
  rewrite for_of_map_message.
  - eexists; split; [reflexivity|]. simpl. rewrite map_map. reflexivity.
  - induction (code_points s); simpl; auto.
Qed.

End RequestMapperMore.

Lemma map_request_reads_three_fields_sample :
  openaiToGeminiRequest sample_request
  = openaiToGeminiRequest
      (JObj [ (js "stream", JBool true);
              (js "max_tokens", JNum (num_of_Z 0));
              (js "messages", Js.opt_get sample_request (js "messages"));
              (js "temperature",
               JNum {| num_neg := false; num_mant := 7; num_exp := -1 |}) ]).
Proof.
  apply (@map_request_reads_three_fields sample_request
           (JObj [ (js "stream", JBool true);
                   (js "max_tokens", JNum (num_of_Z 0));
                   (js "messages", Js.opt_get sample_request (js "messages"));
                   (js "temperature",
                    JNum {| num_neg := false; num_mant := 7; num_exp := -1 |}) ]));
    reflexivity.
Defined.

Lemma map_request_safety_sample :
  exists g,
    openaiToGeminiRequest sample_request = Ok g
    /\ map category (safetySettings g)
       = [ js "HARM_CATEGORY_HARASSMENT"; js "HARM_CATEGORY_HATE_SPEECH";
           js "HARM_CATEGORY_SEXUALLY_EXPLICIT"; js "HARM_CATEGORY_DANGEROUS_CONTENT" ]
    /\ Forall (fun s => threshold s = js "BLOCK_NONE") (safetySettings g).
Proof.
  eexists. split; [reflexivity|].
  apply (@map_request_safety_is_constant sample_request). reflexivity.
Defined.

Lemma map_request_string_messages_sample :
  exists g,
    openaiToGeminiRequest (JObj [(js "messages", JStr (js "hi"))]) = Ok g
    /\ contents g
       = map (fun _ => {| role := js "user"; parts := [ {| text := JUndefined |} ] |})
           (code_points (js "hi")).
Proof.
  apply (@map_request_string_messages [(js "messages", JStr (js "hi"))] (js "hi")).
  reflexivity.
Defined.

(** ** The credential *)

Section Credential.

Import Vercel.

(** X11 -- [getApiKey] answers a key exactly for the headers that are
    "Bearer " followed by the key: the key is what follows the seven
    characters, and nothing else is accepted, a missing header and another
    spelling of the scheme included. *)
Theorem getApiKey_bearer (req : Request) (key : jstring) :
  getApiKey req = Some key <-> authorization req = Some (js "Bearer " ++ key).
Proof.
  unfold getApiKey. destruct (authorization req) as [h|].
  - split.
    + destruct (negb (Js.to_boolean (JStr h)) || negb (startsWith (js "Bearer ") h))
        eqn:E; [discriminate|].
      intros [= <-]. apply orb_false_iff in E. destruct E as [_ E].
      apply negb_false_iff in E.
      f_equal. apply (startsWith_split _ _ E).
    + intros [= ->]. reflexivity.
  - split; discriminate.
Qed.

End Credential.

Lemma getApiKey_bearer_sample :
  Vercel.getApiKey {| Vercel.authorization := Some (js "Bearer sk-test");
                      Vercel.body := JNull |} = Some (js "sk-test").
Proof.
  apply (proj2 (getApiKey_bearer
                  {| Vercel.authorization := Some (js "Bearer sk-test");
                     Vercel.body := JNull |} (js "sk-test"))).
  reflexivity.
Defined.

(** ** More on the single-shot response translator *)

Section ResponseTranslatorMore.

Lemma candidate_text_cases (v : JsValue) :
  candidate_text v = Throw TypeError /\ Js.nullish v = true
  \/ exists c, candidate_text v = Ok c /\ Js.nullish v = false.
Proof.
  unfold candidate_text. rewrite get_cases.
  destruct (Js.nullish v); simpl; [left; auto | right; eauto].
Qed.

(** The envelope, whatever the content. *)
Lemma completion_envelope (env : Env) (geminiResponse model content : JsValue)
  (r : Completion.t) :
  completion env geminiResponse model content = Ok r ->
  Completion.object r = js "chat.completion"
  /\ Completion.model r = model
  /\ Completion.choices r
     = [ {| Completion.index := 0;
            Completion.message :=
              {| Completion.role := js "assistant";
                 Completion.content := content |};
            Completion.finish_reason := js "stop" |} ]
  /\ Completion.usage r
     = {| Completion.prompt_tokens :=
            Js.or (Js.opt_get (Js.opt_get geminiResponse (js "usageMetadata"))
                     (js "promptTokenCount")) (JNum (num_of_Z 0));
          Completion.completion_tokens :=
            Js.or (Js.opt_get (Js.opt_get geminiResponse (js "usageMetadata"))
                     (js "candidatesTokenCount")) (JNum (num_of_Z 0));
          Completion.total_tokens :=
            Js.or (Js.opt_get (Js.opt_get geminiResponse (js "usageMetadata"))
                     (js "totalTokenCount")) (JNum (num_of_Z 0)) |}.
Proof.
  unfold completion, usage_count. rewrite !get_cases.
  destruct (Js.nullish geminiResponse); simpl; [discriminate|].
  intros [= <-]. simpl. auto.
Qed.

(** X12 -- Every answer of the translator, in both variants, has the object
    "chat.completion", the model it was given, one choice with index 0,
    the role "assistant" and the finish reason "stop"; a response without
    [usageMetadata] gives three zero counters, and a counter that is a
    non-zero number is copied as it is. *)
Theorem response_envelope (env : Env) (geminiResponse model : JsValue)
  (r : Completion.t) :
  Fallback.geminiToOpenAIResponse env geminiResponse model = Ok r
  \/ Baseline.geminiToOpenAIResponse env geminiResponse model = Ok r ->
  Completion.object r = js "chat.completion"
  /\ Completion.model r = model
  /\ (exists content,
         Completion.choices r
         = [ {| Completion.index := 0;
                Completion.message :=
                  {| Completion.role := js "assistant";
                     Completion.content := content |};
                Completion.finish_reason := js "stop" |} ])
  /\ (Js.opt_get geminiResponse (js "usageMetadata") = JUndefined ->
      Completion.usage r
      = {| Completion.prompt_tokens := JNum (num_of_Z 0);
           Completion.completion_tokens := JNum (num_of_Z 0);
           Completion.total_tokens := JNum (num_of_Z 0) |})
  /\ (forall n,
         Js.opt_get (Js.opt_get geminiResponse (js "usageMetadata"))
           (js "totalTokenCount") = JNum n ->
         num_is_zero n = false ->
         Completion.total_tokens (Completion.usage r) = JNum n).
Proof.
  intros H.
  assert (Hc : exists content, completion env geminiResponse model content = Ok r).
  { destruct H as [H | H].
    - unfold Fallback.geminiToOpenAIResponse in H.
      destruct (candidate_text geminiResponse) as [c|]; simpl in H; [|discriminate].
      destruct (Js.trim c) as [t|]; simpl in H; [|discriminate]. eauto.
    - unfold Baseline.geminiToOpenAIResponse in H.
      destruct (candidate_text geminiResponse) as [c|]; simpl in H; [|discriminate].
      eauto. }
  destruct Hc as [content Hc]. apply completion_envelope in Hc.
  destruct Hc as (Ho & Hm & Hch & Hu).
  split; [assumption|]. split; [assumption|]. split; [eauto|]. split.
  - intros Hum. rewrite Hu, Hum. reflexivity.
  - intros n Hn Hz. rewrite Hu, Hn. simpl. unfold Js.or. simpl. rewrite Hz.
    reflexivity.
Qed.

(** X13 -- The baseline variant answers every response that is not [null]
    or [undefined]; the fallback variant answers those whose text is a
    string or falsy, and throws a [TypeError] on the others. *)
Theorem response_fails_exactly (env : Env) (geminiResponse model : JsValue) :
  match Baseline.geminiToOpenAIResponse env geminiResponse model with
  | Ok _ => Js.nullish geminiResponse = false
  | Throw e => e = TypeError /\ Js.nullish geminiResponse = true
  end
  /\ match Fallback.geminiToOpenAIResponse env geminiResponse model with
     | Ok _ => exists s, candidate_text geminiResponse = Ok (JStr s)
     | Throw e =>
         e = TypeError
         /\ (Js.nullish geminiResponse = true
             \/ exists c,
                 candidate_text geminiResponse = Ok c
                 /\ forall s, c <> JStr s)
     end.
Proof.
  destruct (candidate_text_cases geminiResponse) as [[Hc Hn] | (c & Hc & Hn)].
  - unfold Baseline.geminiToOpenAIResponse, Fallback.geminiToOpenAIResponse.
    rewrite Hc. simpl. auto.
  - split.
    + destruct (@baseline_response_content env _ model _ Hc) as (r & -> & _).
      assumption.
    + destruct c as [| | b | n | s | l | o];
        try (unfold Fallback.geminiToOpenAIResponse; rewrite Hc; simpl;
             split; [reflexivity|]; right; eexists; split; [reflexivity|];
             intros s; discriminate).
      destruct (fallback_response_content env _ model Hc) as (r & -> & _).
      eauto.
Qed.

(** X14 -- A text that is not a string -- a number, say -- is passed on by
    the baseline variant and makes the fallback variant throw. *)
Theorem non_string_text (env : Env) (geminiResponse model c : JsValue) :
  candidate_text geminiResponse = Ok c ->
  (forall s, c <> JStr s) ->
  (exists r,
      Baseline.geminiToOpenAIResponse env geminiResponse model = Ok r
      /\ Completion.first_content r = Some c)
  /\ Fallback.geminiToOpenAIResponse env geminiResponse model = Throw TypeError.
Proof.
  intros Hc Hs. split.
  - apply baseline_response_content, Hc.
  - unfold Fallback.geminiToOpenAIResponse. rewrite Hc. simpl.
    destruct c; try reflexivity. exfalso. apply (Hs s). reflexivity.
Qed.

(** X15 -- On a response whose text has a character that is not white space
    the two variants give the same answer: the text is returned as it is,
    the white space around it included. *)
Theorem variants_agree_on_text (env : Env) (geminiResponse model : JsValue)
  (s : jstring) :
  candidate_text geminiResponse = Ok (JStr s) ->
  blank s = false ->
  Fallback.geminiToOpenAIResponse env geminiResponse model
  = Baseline.geminiToOpenAIResponse env geminiResponse model
  /\ exists r,
      Baseline.geminiToOpenAIResponse env geminiResponse model = Ok r
      /\ Completion.first_content r = Some (JStr s).
Proof.
  intros Hc Hb. split; [|apply baseline_response_content, Hc].
  unfold Fallback.geminiToOpenAIResponse, Baseline.geminiToOpenAIResponse.
  rewrite Hc. simpl.
  destruct (JsString.trim s) as [|x l] eqn:E; [|reflexivity].
  apply trim_nil_iff in E. congruence.
Qed.




End ResponseTranslatorMore.

Lemma response_envelope_sample :
  exists r,
    Fallback.geminiToOpenAIResponse sample_env (response_with_text (js "hello"))
      sample_model = Ok r
    /\ Completion.object r = js "chat.completion"
    /\ Completion.model r = sample_model
    /\ Completion.usage r
       = {| Completion.prompt_tokens := JNum (num_of_Z 0);
            Completion.completion_tokens := JNum (num_of_Z 0);
            Completion.total_tokens := JNum (num_of_Z 0) |}.
Proof.
  eexists. split; [reflexivity|].
  destruct (@response_envelope sample_env (response_with_text (js "hello"))
              sample_model _ (or_introl eq_refl)) as (Ho & Hm & _ & Hu & _).
  split; [exact Ho|]. split; [exact Hm|]. apply Hu. reflexivity.
Defined.

(** A response whose text is the number 5. *)
Lemma non_string_text_sample :
  (exists r,
      Baseline.geminiToOpenAIResponse sample_env
        (JObj [(js "candidates",
                JArr [JObj [(js "content",
                  JObj [(js "parts",
                    JArr [JObj [(js "text", JNum (num_of_Z 5))]])])]])])
        sample_model = Ok r
      /\ Completion.first_content r = Some (JNum (num_of_Z 5)))
  /\ Fallback.geminiToOpenAIResponse sample_env
       (JObj [(js "candidates",
               JArr [JObj [(js "content",
                 JObj [(js "parts",
                   JArr [JObj [(js "text", JNum (num_of_Z 5))]])])]])])
       sample_model = Throw TypeError.
Proof.
  apply (@non_string_text sample_env
           (JObj [(js "candidates",
                   JArr [JObj [(js "content",
                     JObj [(js "parts",
                       JArr [JObj [(js "text", JNum (num_of_Z 5))]])])]])])
           sample_model (JNum (num_of_Z 5))).
  - reflexivity.
  - intros s. discriminate.
Defined.

Lemma variants_agree_on_text_sample :
  Fallback.geminiToOpenAIResponse sample_env
    (response_with_text (js " hi ")) sample_model
  = Baseline.geminiToOpenAIResponse sample_env
      (response_with_text (js " hi ")) sample_model
  /\ exists r,
      Baseline.geminiToOpenAIResponse sample_env
        (response_with_text (js " hi ")) sample_model = Ok r
      /\ Completion.first_content r = Some (JStr (js " hi ")).
Proof.
  apply (@variants_agree_on_text sample_env (response_with_text (js " hi "))
           sample_model (js " hi ")); reflexivity.
Defined.


(** ** The routes *)

Section Routes.

Import Vercel.

Lemma accepted_key (key : jstring) :
  key <> [] -> negb (Js.to_boolean (JStr key)) = false.
Proof. intros H. destruct key; [contradiction | reflexivity]. Qed.

Lemma translation_not_nullish (v : JsValue) (g : GeminiRequest) :
  openaiToGeminiRequest v = Ok g -> Js.nullish v = false.
Proof.
  unfold openaiToGeminiRequest. rewrite get_cases.
  destruct (Js.nullish v); [discriminate | reflexivity].
Qed.

Lemma translation_throws_TypeError (v : JsValue) (e : Exn) :
  openaiToGeminiRequest v = Throw e -> e = TypeError.
Proof.
  pose proof (openaiToGeminiRequest_outcome v) as H. intros E. rewrite E in H.
  apply H.
Qed.

Lemma baseline_translation_cases (env : Env) (data model : JsValue) :
  (Js.nullish data = true
   /\ Baseline.geminiToOpenAIResponse env data model = Throw TypeError)
  \/ exists r c,
      Baseline.geminiToOpenAIResponse env data model = Ok r
      /\ candidate_text data = Ok c
      /\ Completion.first_content r = Some c.
Proof.
  destruct (candidate_text_cases data) as [[Hc Hn] | (c & Hc & Hn)].
  - left. split; [assumption|].
    unfold Baseline.geminiToOpenAIResponse. rewrite Hc. reflexivity.
  - right. destruct (@baseline_response_content env _ model _ Hc) as (r & Hr & Hf).
    exists r, c. auto.
Qed.

(** X17 -- The Vercel route, for a request with a credential, without [stream]
    flag and with a body the mapper accepts: the backend is called once,
    with the client's key as it is, the model of the body or
    "gemini-1.5-flash", and the mapped request; a rejection with a response
    is answered with that response's status and body, a rejection without
    one with 500, and an answer of the backend with 200 and its
    translation. *)
Theorem vercel_route_mirrors_backend
  (env : Env) (backend : AxiosPost -> AxiosOutcome) (req : Request)
  (key : jstring) (g : GeminiRequest) :
  getApiKey req = Some key -> key <> [] ->
  Js.to_boolean (Js.opt_get (body req) (js "stream")) = false ->
  openaiToGeminiRequest (body req) = Ok g ->
  fst (chat_completions env backend req)
  = [post_for (js ":generateContent") None key (body req) g]
  /\ match backend (post_for (js ":generateContent") None key (body req) g) with
     | Rejects (Some (status, data)) =>
         snd (chat_completions env backend req)
         = {| status := status; payload := ErrorPayload data (Some status) |}
     | Rejects None =>
         snd (chat_completions env backend req) = internal_error
     | Resolves data =>
         Js.nullish data = false ->
         exists r c,
           snd (chat_completions env backend req)
           = {| status := 200; payload := CompletionPayload r |}
           /\ candidate_text data = Ok c
           /\ Completion.first_content r = Some c
     end.
Proof.
  intros Hkey Hne Hstream Hg.
  pose proof (translation_not_nullish _ Hg) as Hn.
  unfold chat_completions. rewrite Hkey, (accepted_key Hne).
  rewrite !get_cases, Hn, Hstream, Hg. cbn [bind].
  fold (post_for (js ":generateContent") None key (body req) g).
  destruct (backend _) as [data | [[status data]|]]; simpl.
  - split; [destruct (Baseline.geminiToOpenAIResponse env data _); reflexivity|].
    intros Hd.
    destruct (baseline_translation_cases env data
                (Js.or (Js.opt_get (body req) (js "model"))
                   (JStr (js "gemini-1.5-flash"))))
      as [[Hd' _] | (r & c & Hr & Hc & Hf)]; [congruence|].
    rewrite Hr. exists r, c. auto.
  - split; reflexivity.
  - split; reflexivity.
Qed.


End Routes.

Lemma vercel_route_mirrors_backend_sample :
  fst (Vercel.chat_completions sample_env
         (fun _ => Vercel.Rejects (Some (429%Z, JStr (js "quota"))))
         {| Vercel.authorization := Some (js "Bearer sk-test");
            Vercel.body := sample_request |})
  = [ {| Vercel.post_model := JStr (js "gemini-1.5-pro");
         Vercel.post_verb := js ":generateContent";
         Vercel.post_key := js "sk-test";
         Vercel.post_data :=
           {| contents :=
                map content_of
                  [ JObj [(js "role", JStr (js "system"));
                          (js "content", JStr (js "Be brief."))];
                    JObj [(js "role", JStr (js "user"));
                          (js "content", JStr (js "Hello"))];
                    JObj [(js "role", JStr (js "assistant"));
                          (js "content", JStr (js "Hi there"))] ];
              generationConfig :=
                {| maxOutputTokens := None;
                   temperature :=
                     Some (JNum {| num_neg := false; num_mant := 7;
                                   num_exp := -1 |}) |};
              safetySettings := permissive_safety |};
         Vercel.post_responseType := None |} ]
  /\ snd (Vercel.chat_completions sample_env
            (fun _ => Vercel.Rejects (Some (429%Z, JStr (js "quota"))))
            {| Vercel.authorization := Some (js "Bearer sk-test");
               Vercel.body := sample_request |})
     = {| Vercel.status := 429;
          Vercel.payload :=
            Vercel.ErrorPayload (JStr (js "quota")) (Some 429%Z) |}.
Proof.
  apply (@vercel_route_mirrors_backend sample_env
           (fun _ => Vercel.Rejects (Some (429%Z, JStr (js "quota"))))
           {| Vercel.authorization := Some (js "Bearer sk-test");
              Vercel.body := sample_request |}
           (js "sk-test")).
  - reflexivity.
  - discriminate.
  - reflexivity.
  - reflexivity.
Defined.

(** ** The routes of the streaming variants *)

Section GatewayRoutes.

Import Gateway.

Variable translate : Env -> JsValue -> JsValue -> Res Completion.t.
Variable reframe : Env -> JsValue -> list StreamEvent -> list ResCall.

Lemma gateway_streams_eq
  (env : Env) (writable : bool) (backend : Backend) (req : Vercel.Request)
  (key : jstring) (g : GeminiRequest) (events : list StreamEvent) :
  Vercel.getApiKey req = Some key -> key <> [] ->
  Js.to_boolean (Js.opt_get (Vercel.body req) (js "stream")) = true ->
  openaiToGeminiRequest (Vercel.body req) = Ok g ->
  post_stream backend
    (post_for (js ":streamGenerateContent") (Some (js "stream")) key
       (Vercel.body req) g) = StreamResolves events ->
  chat_completions translate reframe env writable backend req
  = ([post_for (js ":streamGenerateContent") (Some (js "stream")) key
        (Vercel.body req) g],
     EventStream event_stream_head
       (reframe env
          (Js.or (Js.opt_get (Vercel.body req) (js "model"))
             (JStr (js "gemini-1.5-flash")))
          events)).
Proof.
  intros Hkey Hne Hstream Hg Hb.
  pose proof (translation_not_nullish _ Hg) as Hn.
  unfold chat_completions.
  rewrite Hkey, (accepted_key Hne), Hg, !get_cases, Hn. cbn [bind].
  rewrite Hstream.
  fold (post_for (js ":streamGenerateContent") (Some (js "stream")) key
          (Vercel.body req) g).
  rewrite Hb. reflexivity.
Qed.

(** X19 -- In the streaming variants the body is mapped before the [stream] flag
    is looked at: a request with a credential and a body the mapper
    refuses is answered with 500 and without a backend call, its [stream]
    flag set or not; the Vercel variant answers the same request with 400
    when the flag is set. *)
Theorem gateway_maps_before_streaming
  (env : Env) (backend : Backend) (req : Vercel.Request) (key : jstring) (e : Exn) :
  Vercel.getApiKey req = Some key -> key <> [] ->
  openaiToGeminiRequest (Vercel.body req) = Throw e ->
  chat_completions translate reframe env true backend req
  = ([], Json internal_error)
  /\ (Js.to_boolean (Js.opt_get (Vercel.body req) (js "stream")) = true ->
      Js.nullish (Vercel.body req) = false ->
      forall vercel_backend,
        Vercel.status
          (snd (Vercel.chat_completions env vercel_backend req)) = 400%Z).
Proof.
  intros Hkey Hne He. split.
  - unfold chat_completions.
    rewrite Hkey, (accepted_key Hne), He. reflexivity.
  - intros Hs Hn vb. unfold Vercel.chat_completions.
    rewrite Hkey, (accepted_key Hne), get_cases, Hn, Hs. reflexivity.
Qed.

End GatewayRoutes.

(** X20 -- The streaming route of the fallback variant, from the request to the
    last frame.  A request with a credential, a truthy [stream] flag and a
    body the mapper accepts makes one call, to [:streamGenerateContent]
    with the response type "stream"; when the backend's stream delivers
    chunks and ends, the client gets the head of an event stream (status
    200, content type [text/event-stream]), one content chunk at least, the
    terminal chunk and [DONE], and the connection is closed. *)
Theorem fallback_route_streams_to_the_end
  (env : Env) (writable : bool) (backend : Gateway.Backend)
  (req : Vercel.Request) (key : jstring) (g : GeminiRequest)
  (chunks : list jstring) :
  Vercel.getApiKey req = Some key -> key <> [] ->
  Js.to_boolean (Js.opt_get (Vercel.body req) (js "stream")) = true ->
  openaiToGeminiRequest (Vercel.body req) = Ok g ->
  Gateway.post_stream backend
    (post_for (js ":streamGenerateContent") (Some (js "stream")) key
       (Vercel.body req) g) = Gateway.StreamResolves (map OnData chunks ++ [OnEnd]) ->
  fst (Gateway.fallback_route env writable backend req)
  = [post_for (js ":streamGenerateContent") (Some (js "stream")) key
       (Vercel.body req) g]
  /\ exists contents,
      snd (Gateway.fallback_route env writable backend req)
      = Gateway.EventStream
          {| Gateway.head_status := 200;
             Gateway.head_headers :=
               [ (js "Content-Type", js "text/event-stream");
                 (js "Cache-Control", js "no-cache");
                 (js "Connection", js "keep-alive") ] |}
          (contents
           ++ [ Write (ChunkEvent
                         (terminal_chunk env
                            (Js.or (Js.opt_get (Vercel.body req) (js "model"))
                               (JStr (js "gemini-1.5-flash")))));
                Write Done; End ])
      /\ contents <> []
      /\ Forall content_call contents.
Proof.
  intros Hkey Hne Hstream Hg Hb.
  unfold Gateway.fallback_route.
  rewrite (@gateway_streams_eq Fallback.geminiToOpenAIResponse _ env writable
             backend req key g _ Hkey Hne Hstream Hg Hb).
  split; [reflexivity|].
  destruct (ended_stream_log env
              (Js.or (Js.opt_get (Vercel.body req) (js "model"))
                 (JStr (js "gemini-1.5-flash"))) chunks)
    as (contents & Hlog & Hne' & Hall).
  exists contents. split; [|auto].
  simpl. rewrite Hlog. reflexivity.
Qed.

(** X21 -- Without [stream] flag, and as long as the connection is open, the
    route of the baseline variant answers as the Vercel route does: the
    same backend call, the same reply. *)
Theorem baseline_route_without_stream
  (env : Env) (backend : Gateway.Backend) (req : Vercel.Request) :
  Js.to_boolean (Js.opt_get (Vercel.body req) (js "stream")) = false ->
  Gateway.baseline_route env true backend req
  = (fst (Vercel.chat_completions env (Gateway.post_json backend) req),
     Gateway.Json (snd (Vercel.chat_completions env (Gateway.post_json backend) req))).
Proof.
  intros Hs.
  unfold Gateway.baseline_route, Gateway.chat_completions, Vercel.chat_completions.
  destruct (Vercel.getApiKey req) as [k|]; [|reflexivity].
  destruct (negb (Js.to_boolean (JStr k))); [reflexivity|].
  rewrite !get_cases.
  destruct (Js.nullish (Vercel.body req)) eqn:Hn.
  - unfold openaiToGeminiRequest. rewrite get_cases, Hn. reflexivity.
  - rewrite Hs.
    destruct (openaiToGeminiRequest (Vercel.body req)) as [g|e]; cbn [bind].
    + rewrite Hs.
      destruct (Gateway.post_json backend _) as [data|resp]; [|reflexivity].
      destruct (Baseline.geminiToOpenAIResponse env data _); reflexivity.
    + reflexivity.
Qed.

Lemma gateway_maps_before_streaming_sample :
  Gateway.fallback_route sample_env true
    {| Gateway.post_json := fun _ => Vercel.Rejects None;
       Gateway.post_stream := fun _ => Gateway.StreamRejects None |}
    {| Vercel.authorization := Some (js "Bearer sk-test");
       Vercel.body := JObj [(js "stream", JBool true)] |}
  = ([], Gateway.Json internal_error)
  /\ Vercel.status
       (snd (Vercel.chat_completions sample_env (fun _ => Vercel.Rejects None)
               {| Vercel.authorization := Some (js "Bearer sk-test");
                  Vercel.body := JObj [(js "stream", JBool true)] |})) = 400%Z.
Proof.
  destruct (@gateway_maps_before_streaming Fallback.geminiToOpenAIResponse
              (fun env model events =>
                 Fallback.res
                   (Fallback.run
                      (Fallback.transformGeminiStreamToOpenAIStream env [] model)
                      events))
              sample_env
              {| Gateway.post_json := fun _ => Vercel.Rejects None;
                 Gateway.post_stream := fun _ => Gateway.StreamRejects None |}
              {| Vercel.authorization := Some (js "Bearer sk-test");
                 Vercel.body := JObj [(js "stream", JBool true)] |}
              (js "sk-test") TypeError) as [H1 H2].
  - reflexivity.
  - discriminate.
  - reflexivity.
  - split; [exact H1|]. apply H2; reflexivity.
Defined.

(** A streaming request whose backend stream carries the Hi frame in two
    chunks and ends. *)
Lemma fallback_route_streams_sample :
  fst (Gateway.fallback_route sample_env true sample_stream_backend
         sample_stream_request)
  = [post_for (js ":streamGenerateContent") (Some (js "stream")) (js "sk-test")
       (Vercel.body sample_stream_request)
       {| contents :=
            map content_of [JObj [(js "role", JStr (js "user"));
                                  (js "content", JStr (js "Hello"))]];
          generationConfig :=
            {| maxOutputTokens := None; temperature := None |};
          safetySettings := permissive_safety |}]
  /\ exists contents,
      snd (Gateway.fallback_route sample_env true sample_stream_backend
             sample_stream_request)
      = Gateway.EventStream
          {| Gateway.head_status := 200;
             Gateway.head_headers :=
               [ (js "Content-Type", js "text/event-stream");
                 (js "Cache-Control", js "no-cache");
                 (js "Connection", js "keep-alive") ] |}
          (contents
           ++ [ Write (ChunkEvent
                         (terminal_chunk sample_env
                            (Js.or (Js.opt_get (Vercel.body sample_stream_request)
                                      (js "model"))
                               (JStr (js "gemini-1.5-flash")))));
                Write Done; End ])
      /\ contents <> []
      /\ Forall content_call contents.
Proof.
  apply (@fallback_route_streams_to_the_end sample_env true sample_stream_backend
           sample_stream_request (js "sk-test")
           {| contents :=
                map content_of [JObj [(js "role", JStr (js "user"));
                                      (js "content", JStr (js "Hello"))]];
              generationConfig :=
                {| maxOutputTokens := None; temperature := None |};
              safetySettings := permissive_safety |}
           [hi_frame ++ lf; lf]).
  - reflexivity.
  - discriminate.
  - reflexivity.
  - reflexivity.
  - reflexivity.
Defined.

Lemma baseline_route_without_stream_sample :
  Gateway.baseline_route sample_env true
    {| Gateway.post_json := fun _ => Vercel.Resolves (response_with_text (js "hello"));
       Gateway.post_stream := fun _ => Gateway.StreamRejects None |}
    {| Vercel.authorization := Some (js "Bearer sk-test");
       Vercel.body := sample_request |}
  = (fst (Vercel.chat_completions sample_env
            (fun _ => Vercel.Resolves (response_with_text (js "hello")))
            {| Vercel.authorization := Some (js "Bearer sk-test");
               Vercel.body := sample_request |}),
     Gateway.Json
       (snd (Vercel.chat_completions sample_env
               (fun _ => Vercel.Resolves (response_with_text (js "hello")))
               {| Vercel.authorization := Some (js "Bearer sk-test");
                  Vercel.body := sample_request |}))).
Proof.
  apply (@baseline_route_without_stream sample_env
           {| Gateway.post_json :=
                fun _ => Vercel.Resolves (response_with_text (js "hello"));
              Gateway.post_stream := fun _ => Gateway.StreamRejects None |}
           {| Vercel.authorization := Some (js "Bearer sk-test");
              Vercel.body := sample_request |}).
  reflexivity.
Defined.

(** ** The model-list route *)

Section ModelList.

Import ModelsRoute.

Lemma remove_first_prefix (p s : jstring) : remove_first p (p ++ s) = s.
Proof.
  unfold remove_first.
  assert (H : startsWith p (p ++ s) = true).
  { induction p as [|x p IH]; simpl; [reflexivity|].
    rewrite N.eqb_refl. exact IH. }
  assert (E : indexOf p (p ++ s) = Some 0).
  { destruct (p ++ s) eqn:Eq; simpl; rewrite H; reflexivity. }
  rewrite E. simpl. rewrite skipn_app, skipn_all, Nat.sub_diag. reflexivity.
Qed.

Lemma existsb_is_string (lit : jstring) (l : list jstring) :
  existsb (Js.is_string lit) (map JStr l)
  = existsb (fun x => JsString.eqb x lit) l.
Proof. induction l as [|x l IH]; simpl; [reflexivity|]. rewrite IH. reflexivity. Qed.

Lemma supports_entry (m : jstring * list jstring) :
  supports (model_entry m) = Ok (supports_generateContent m).
Proof.
  unfold supports, model_entry, supports_generateContent. simpl.
  rewrite existsb_is_string. reflexivity.
Qed.

Lemma filter_entries (ms : list (jstring * list jstring)) :
  filter (map model_entry ms)
  = Ok (map model_entry (List.filter supports_generateContent ms)).
Proof.
  induction ms as [|m ms IH]; [reflexivity|].
  cbn [map filter]. rewrite supports_entry. cbn [bind]. rewrite IH. cbn [bind].
  simpl List.filter. destruct (supports_generateContent m); reflexivity.
Qed.

Lemma openai_model_entry (now : Z) (m : jstring * list jstring) :
  openai_model now (model_entry m)
  = Ok {| id := fst m; object := js "model"; created := (now / 1000)%Z;
          owned_by := js "google" |}.
Proof.
  unfold openai_model.
  change (Js.get (model_entry m) (js "name"))
    with (Ok (JStr (js "models/" ++ fst m))).
  cbn [bind replace]. rewrite remove_first_prefix. reflexivity.
Qed.

Lemma map_models_entries (clock : nat -> Z) (n : nat)
  (ms : list (jstring * list jstring)) :
  exists l,
    map_models clock n (map model_entry ms) = Ok l
    /\ map id l = map fst ms
    /\ Forall (fun m => object m = js "model" /\ owned_by m = js "google") l
    /\ forall i m, nth_error l i = Some m -> created m = (clock (n + i)%nat / 1000)%Z.
Proof.
  revert n. induction ms as [|m ms IH]; intros n.
  - exists []. repeat split; try constructor. intros [|i] m H; discriminate.
  - destruct (IH (S n)) as (l & Hl & Hid & Hall & Hcr).
    cbn [map map_models]. rewrite openai_model_entry. cbn [bind].
    rewrite Hl. cbn [bind]. eexists; split; [reflexivity|].
    split; [simpl; rewrite Hid; reflexivity|]. split.
    + constructor; [split; reflexivity | assumption].
    + intros [|i] m' H; simpl in H.
      * injection H as <-. simpl. rewrite Nat.add_0_r. reflexivity.
      * apply Hcr in H. rewrite H. f_equal. f_equal. lia.
Qed.

(** X22 -- The model list, for a request with a credential, when the backend
    answers with a list of well-formed models: the reply has the status
    200 and lists the models that support "generateContent", in the
    backend's order, each under its name without "models/" in front, as an
    object "model" owned by "google". *)
Theorem models_lists_supporting_models
  (clock : nat -> Z) (backend : jstring -> Vercel.AxiosOutcome)
  (req : Vercel.Request) (key : jstring) (props : list (jstring * JsValue))
  (ms : list (jstring * list jstring)) :
  Vercel.getApiKey req = Some key -> key <> [] ->
  backend key = Vercel.Resolves (JObj props) ->
  Js.lookup (js "models") props = JArr (map model_entry ms) ->
  exists l,
    models clock backend req = ([key], {| status := 200; payload := ListPayload l |})
    /\ map id l = map fst (List.filter supports_generateContent ms)
    /\ Forall (fun m => object m = js "model" /\ owned_by m = js "google") l.
Proof.
  intros Hkey Hne Hb Hm.
  destruct (map_models_entries clock 0 (List.filter supports_generateContent ms))
    as (l & Hl & Hid & Hall & _).
  exists l. split; [|auto].
  unfold models. rewrite Hkey, (accepted_key Hne), Hb.
  cbn [Js.get bind]. rewrite Hm. cbn [array_elements bind].
  rewrite filter_entries. cbn [bind]. rewrite Hl. reflexivity.
Qed.




End ModelList.

Lemma models_lists_sample :
  exists l,
    ModelsRoute.models (fun _ => 1700000000123%Z)
      (fun _ =>
         Vercel.Resolves
           (JObj [(js "models",
                   JArr (map model_entry
                           [ (js "gemini-pro", [js "generateContent"; js "countTokens"]);
                             (js "embedding-001", [js "embedContent"]);
                             (js "gemini-1.5-flash", [js "generateContent"]) ]))]))
      {| Vercel.authorization := Some (js "Bearer sk-test"); Vercel.body := JUndefined |}
    = ([js "sk-test"],
       {| ModelsRoute.status := 200; ModelsRoute.payload := ModelsRoute.ListPayload l |})
    /\ map ModelsRoute.id l = [js "gemini-pro"; js "gemini-1.5-flash"]
    /\ Forall (fun m => ModelsRoute.object m = js "model"
                        /\ ModelsRoute.owned_by m = js "google") l.
Proof.
  apply (@models_lists_supporting_models (fun _ => 1700000000123%Z)
           (fun _ =>
              Vercel.Resolves
                (JObj [(js "models",
                        JArr (map model_entry
                                [ (js "gemini-pro", [js "generateContent"; js "countTokens"]);
                                  (js "embedding-001", [js "embedContent"]);
                                  (js "gemini-1.5-flash", [js "generateContent"]) ]))]))
           {| Vercel.authorization := Some (js "Bearer sk-test");
              Vercel.body := JUndefined |}
           (js "sk-test")
           [(js "models",
             JArr (map model_entry
                     [ (js "gemini-pro", [js "generateContent"; js "countTokens"]);
                       (js "embedding-001", [js "embedContent"]);
                       (js "gemini-1.5-flash", [js "generateContent"]) ]))]
           [ (js "gemini-pro", [js "generateContent"; js "countTokens"]);
             (js "embedding-001", [js "embedContent"]);
             (js "gemini-1.5-flash", [js "generateContent"]) ]).
  - reflexivity.
  - discriminate.
  - reflexivity.
  - reflexivity.
Defined.


